(** * g19.py: user-space driver for the G19 keyboard (LCD, backlight, keys)

    Shallow embedding of [src/g19.py] and the properties of its wire
    encodings, its key-state tracking and its command methods.

    Python values are embedded as follows: [int] as [Z] (unbounded, with
    [Z.land], [Z.lor], [Z.shiftl], [Z.shiftr] for [&], [|], [<<], [>>]),
    [float] as the binary64 primitive floats, lists and byte arrays as
    [list Z], the two [dict]s of key states as [gmap]s, exceptions as the
    [Raise] branch of [result]. *)

From Stdlib Require Import ZArith Lia List Bool.
From Stdlib Require Import Floats.PrimFloat Floats.FloatOps Floats.SpecFloat.
From Stdlib Require Import Numbers.Cyclic.Int63.Uint63.
From stdpp Require Import base option list gmap.
Import ListNotations.

#[local] Open Scope Z_scope.

(** ** Exceptions and results *)

(** The exception classes that the modelled code can raise.  [USBError]
    is [usb.USBError], raised by the device on a failed transfer. *)
Inductive exn : Set :=
| AssertionError
| ValueError
| IndexError
| KeyError
| AttributeError
| OverflowError
| USBError.

Inductive result (A : Type) : Type :=
| Ok (a : A)
| Raise (e : exn).
Arguments Ok {A} a.
Arguments Raise {A} e.

#[global] Instance result_ret : MRet result := fun A a => Ok a.
#[global] Instance result_bind : MBind result := fun A B k m =>
  match m with
  | Ok a => k a
  | Raise e => Raise e
  end.

Definition result_Z_eqb (a b : result Z) : bool :=
  match a, b with
  | Ok x, Ok y => x =? y
  | _, _ => false
  end.

(** Methods mutate their object and may raise: a computation over a
    state [S] returns the state it leaves behind together with its result;
    what was written before an exception stays written. *)
Definition stateful (S A : Type) : Type := S -> S * result A.

#[global] Instance stateful_ret {S : Type} : MRet (stateful S) :=
  fun A a s => (s, Ok a).
#[global] Instance stateful_bind {S : Type} : MBind (stateful S) :=
  fun A B k m s =>
    match m s with
    | (s', Ok a) => k a s'
    | (s', Raise e) => (s', Raise e)
    end.

Definition get {S : Type} : stateful S S := fun s => (s, Ok s).
Definition modify {S : Type} (f : S -> S) : stateful S unit :=
  fun s => (f s, Ok tt).
Definition raise {S A : Type} (e : exn) : stateful S A :=
  fun s => (s, Raise e).
Definition lift {S A : Type} (r : result A) : stateful S A :=
  fun s => (s, r).

(** [pass] *)
Definition pass {S : Type} : stateful S unit := fun s => (s, Ok tt).

(** [try: body / except usb.USBError: pass] *)
Definition try_except_USBError {S : Type} (body : stateful S unit)
  : stateful S unit :=
  fun s =>
    match body s with
    | (s', Raise USBError) => (s', Ok tt)
    | out => out
    end.

(** ** The Python primitives used by the driver *)

Module Py.

(** [float(z)].  The conversion is exact up to 2^53 in absolute value,
    which covers every operand of a division in the driver on byte
    channels (at most 255 * 63); integers of 63 bits and more are outside
    the model. *)
Definition float_of_int (z : Z) : float :=
  match z with
  | Z0 => PrimFloat.zero
  | Zpos _ => PrimFloat.of_uint63 (Uint63.of_Z z)
  | Zneg p => PrimFloat.opp (PrimFloat.of_uint63 (Uint63.of_Z (Zpos p)))
  end.

(** [a / b] on two [int]s: true division, the binary64 quotient of the
    two operands rounded to nearest.  [ZeroDivisionError] cannot arise:
    every divisor in the source is the literal 255. *)
Definition truediv (a b : Z) : float :=
  PrimFloat.div (float_of_int a) (float_of_int b).

(** [int(f)]: truncation toward zero; an infinity raises
    [OverflowError], a NaN raises [ValueError]. *)
Definition int_of_float (f : float) : result Z :=
  match Prim2SF f with
  | S754_zero _ => Ok 0
  | S754_finite s m e =>
      let a := match e with
               | Z0 => Zpos m
               | Zpos _ => Z.shiftl (Zpos m) e
               | Zneg k => Z.shiftr (Zpos m) (Zpos k)
               end in
      Ok (if s then - a else a)
  | S754_infinity _ => Raise OverflowError
  | S754_nan => Raise ValueError
  end.

(** [l[i:j]] for [0 <= i <= j]: slicing never raises, it clips. *)
Definition slice {A : Type} (l : list A) (i j : nat) : list A :=
  take (j - i) (drop i l).

(** [a, b, c = l]: unpacking raises [ValueError] unless [l] has
    exactly three items. *)
Definition unpack3 {A : Type} (l : list A) : result (A * A * A) :=
  match l with
  | [a; b; c] => Ok (a, b, c)
  | _ => Raise ValueError
  end.

(** [l[i]] for [0 <= i]: [IndexError] out of range. *)
Definition index {A : Type} (l : list A) (i : nat) : result A :=
  match l !! i with
  | Some a => Ok a
  | None => Raise IndexError
  end.

(** Truthiness of an [int]. *)
Definition truthy (z : Z) : bool := negb (z =? 0).

(** [for a in l: body(a)] over a state, stopping at the first
    exception. *)
Fixpoint for_each {A S : Type} (l : list A) (body : A -> stateful S unit)
  : stateful S unit :=
  match l with
  | [] => pass
  | a :: l' => body a;; for_each l' body
  end.

(** [range(n)] *)
Definition range (n : nat) : list nat := seq 0 n.

(** [l.append(x)] on a list held in the state. *)
Definition append {A : Type} (x : A) : stateful (list A) unit :=
  modify (fun l => l ++ [x]).

End Py.

(** ** Module constants *)

Definition FRAME_PREAMBLE : list Z :=
  [0x10; 0x0f; 0x00; 0x58; 0x02; 0x00; 0x00; 0x00; 0x00; 0x00;
   0x00; 0x3f; 0x01; 0xef; 0x00; 0x0f]
  ++ map Z.of_nat (seq 16 240)
  ++ map Z.of_nat (seq 0 256).

(** ** ColorCodec: [convert_color] *)

Definition scale_channel (channel max_dest : Z) : result Z :=
  Py.int_of_float (Py.truediv (channel * max_dest) 255).

Definition convert_color (red green blue : Z) : result Z :=
  red_bits ← scale_channel red (2 ^ 5 - 1);
  green_bits ← scale_channel green (2 ^ 6 - 1);
  blue_bits ← scale_channel blue (2 ^ 5 - 1);
  Ok (Z.lor (Z.lor (Z.shiftl red_bits 11) (Z.shiftl green_bits 5)) blue_bits).

(** ** The key enumerations *)

(** An [enum.IntEnum] class: its members in declaration order (the order
    in which [for key in Enum] visits them) and the [int] each one is. *)
Class IntEnum (K : Type) `{Countable K} : Type := {
  members : list K;
  value : K -> Z
}.

Module ControlKey.

Inductive t : Set :=
| SETTINGS | BACK | MENU
| OK
| RIGHT | LEFT | DOWN | UP.

Definition int (key : t) : Z :=
  match key with
  | SETTINGS => 0x01
  | BACK => 0x02
  | MENU => 0x04
  | OK => 0x08
  | RIGHT => 0x10
  | LEFT => 0x20
  | DOWN => 0x40
  | UP => 0x80
  end.

Definition all : list t := [SETTINGS; BACK; MENU; OK; RIGHT; LEFT; DOWN; UP].

Definition of_int (z : Z) : option t :=
  head (filter (fun key => int key = z) all).

#[global] Instance eq_dec : EqDecision t.
Proof. solve_decision. Defined.

#[global] Instance countable : Countable t.
Proof. apply (inj_countable int of_int). intros []; reflexivity. Defined.

#[global] Instance enum : IntEnum t := {| members := all; value := int |}.

End ControlKey.

Module GameKey.

Inductive t : Set :=
| G01 | G02 | G03 | G04 | G05 | G06 | G07 | G08 | G09 | G10 | G11 | G12
| M1 | M2 | M3
| MR
| LIGHT.

Definition int (key : t) : Z :=
  match key with
  | G01 => 0x0001
  | G02 => 0x0002
  | G03 => 0x0004
  | G04 => 0x0008
  | G05 => 0x0010
  | G06 => 0x0020
  | G07 => 0x0040
  | G08 => 0x0080
  | G09 => 0x0100
  | G10 => 0x0200
  | G11 => 0x0400
  | G12 => 0x0800
  | M1 => 0x1000
  | M2 => 0x2000
  | M3 => 0x4000
  | MR => 0x8000
  | LIGHT => 0x80000
  end.

Definition all : list t :=
  [G01; G02; G03; G04; G05; G06; G07; G08; G09; G10; G11; G12;
   M1; M2; M3; MR; LIGHT].

Definition of_int (z : Z) : option t :=
  head (filter (fun key => int key = z) all).

#[global] Instance eq_dec : EqDecision t.
Proof. solve_decision. Defined.

#[global] Instance countable : Countable t.
Proof. apply (inj_countable int of_int). intros []; reflexivity. Defined.

#[global] Instance enum : IntEnum t := {| members := all; value := int |}.

End GameKey.

Module LightKeys.

Inductive t : Set := M1 | M2 | M3 | MR.

Definition int (key : t) : Z :=
  match key with
  | M1 => 0x80
  | M2 => 0x40
  | M3 => 0x20
  | MR => 0x10
  end.

End LightKeys.

(** A member of either key enumeration, as handed to the handlers of
    [key_down] and [key_up]. *)
Inductive Key : Set :=
| Control (key : ControlKey.t)
| Game (key : GameKey.t).

#[global] Instance Key_eq_dec : EqDecision Key.
Proof. solve_decision. Defined.

(** ** Notifications *)

(** Which of the two [Event] objects was fired. *)
Inductive edge : Set := KeyDown | KeyUp.

#[global] Instance edge_eq_dec : EqDecision edge.
Proof. solve_decision. Defined.

(** One call of [key_down.fire(key)] or [key_up.fire(key)]. *)
Definition notification : Set := edge * Key.

(** ** KeyState: one pass of [for key in Enum] over a raw bitmask

    The loop body of [_run] is the same for both key matrices; it reads
    and writes one of the two dicts and fires on the two events.  The
    state it works on is that dict together with the calls of [fire] made
    so far, oldest first. *)

Section KeyState.
Context {K : Type} `{IntEnum K}.
Variable name : K -> Key.

(** [states[key]]: [KeyError] when the key is absent. *)
Definition stored (key : K) : stateful (gmap K bool * list notification) bool :=
  fun st =>
    match st.1 !! key with
    | Some pressed => (st, Ok pressed)
    | None => (st, Raise KeyError)
    end.

(** [states[key] = pressed] *)
Definition store (key : K) (pressed : bool)
  : stateful (gmap K bool * list notification) unit :=
  modify (fun st => (<[key := pressed]> st.1, st.2)).

Definition fire (e : edge) (key : K)
  : stateful (gmap K bool * list notification) unit :=
  modify (fun st => (st.1, st.2 ++ [(e, name key)])).

Definition scan_key (keys : Z) (key : K)
  : stateful (gmap K bool * list notification) unit :=
  if Py.truthy (Z.land keys (value key)) then
    pressed ← stored key;
    (if negb pressed then fire KeyDown key else pass);;
    store key true
  else
    pressed ← stored key;
    (if (pressed : bool) then fire KeyUp key else pass);;
    store key false.

Definition scan_keys (keys : Z)
  : stateful (gmap K bool * list notification) unit :=
  Py.for_each members (scan_key keys).

End KeyState.

(** [dict((key, False) for key in Enum)] *)
Definition all_released {K : Type} `{IntEnum K} : gmap K bool :=
  list_to_map (map (fun key => (key, false)) members).

(** ** The USB device (pyusb) *)

(** Constants of the [usb] module. *)
Definition TYPE_CLASS : Z := 0x20.
Definition TYPE_VENDOR : Z := 0x40.
Definition RECIP_INTERFACE : Z := 0x01.

(** The transfers the driver issues, with their arguments. *)
Inductive usb_op : Type :=
| CtrlTransfer (bmRequestType bRequest wValue wIndex : Z) (data : list Z)
               (timeout : Z)
| BulkWrite (endpoint : Z) (data : list Z) (timeout : Z)
| BulkRead (endpoint : Z) (size : Z) (timeout : Z).

(** The device handle.  [responds] is the hardware: from the transfers
    issued before and the one issued now, the bytes it returns (none for a
    write), or [None] when the transfer times out or fails, which pyusb
    raises as [USBError].  [transfers] records every transfer issued,
    oldest first. *)
Record usb_device : Type := {
  responds : list usb_op -> usb_op -> option (list Z);
  transfers : list usb_op
}.

Definition usb_issue (op : usb_op) (d : usb_device)
  : usb_device * result (list Z) :=
  ({| responds := responds d; transfers := transfers d ++ [op] |},
   match responds d (transfers d) op with
   | Some bytes => Ok bytes
   | None => Raise USBError
   end).

(** ** DeviceSession: class [G19] *)

(** The [threading.Thread] object made by [start]; its target is
    [_run]. *)
Inductive thread : Set := PollThread.

Module G19.

Record t : Type := {
  _device : usb_device;
  _color : Z * Z * Z;
  _brightness : Z;
  _thread : option thread;
  _running : bool;
  _stopped : bool;
  _display_keys : gmap ControlKey.t bool;
  _game_keys : gmap GameKey.t bool;
  fired : list notification
}.

Definition set_device (d : usb_device) (self : t) : t :=
  {| _device := d; _color := _color self; _brightness := _brightness self;
     _thread := _thread self; _running := _running self;
     _stopped := _stopped self; _display_keys := _display_keys self;
     _game_keys := _game_keys self; fired := fired self |}.

Definition set_color (c : Z * Z * Z) (self : t) : t :=
  {| _device := _device self; _color := c; _brightness := _brightness self;
     _thread := _thread self; _running := _running self;
     _stopped := _stopped self; _display_keys := _display_keys self;
     _game_keys := _game_keys self; fired := fired self |}.

Definition set_brightness (b : Z) (self : t) : t :=
  {| _device := _device self; _color := _color self; _brightness := b;
     _thread := _thread self; _running := _running self;
     _stopped := _stopped self; _display_keys := _display_keys self;
     _game_keys := _game_keys self; fired := fired self |}.

Definition set_thread (th : option thread) (self : t) : t :=
  {| _device := _device self; _color := _color self;
     _brightness := _brightness self;
     _thread := th; _running := _running self;
     _stopped := _stopped self; _display_keys := _display_keys self;
     _game_keys := _game_keys self; fired := fired self |}.

Definition set_running (r : bool) (self : t) : t :=
  {| _device := _device self; _color := _color self;
     _brightness := _brightness self;
     _thread := _thread self; _running := r;
     _stopped := _stopped self; _display_keys := _display_keys self;
     _game_keys := _game_keys self; fired := fired self |}.

Definition set_stopped (b : bool) (self : t) : t :=
  {| _device := _device self; _color := _color self;
     _brightness := _brightness self;
     _thread := _thread self; _running := _running self;
     _stopped := b; _display_keys := _display_keys self;
     _game_keys := _game_keys self; fired := fired self |}.

Definition set_display_keys (st : gmap ControlKey.t bool * list notification)
           (self : t) : t :=
  {| _device := _device self; _color := _color self;
     _brightness := _brightness self;
     _thread := _thread self; _running := _running self;
     _stopped := _stopped self; _display_keys := st.1;
     _game_keys := _game_keys self; fired := st.2 |}.

Definition set_game_keys (st : gmap GameKey.t bool * list notification)
           (self : t) : t :=
  {| _device := _device self; _color := _color self;
     _brightness := _brightness self;
     _thread := _thread self; _running := _running self;
     _stopped := _stopped self; _display_keys := _display_keys self;
     _game_keys := st.1; fired := st.2 |}.

(** [__init__], once [usb.core.find] has returned the handle [device];
    the set-up calls on the handle (reset, detaching the kernel driver,
    set_configuration) are not transfers and are left out. *)
Definition init (device : usb_device) : t :=
  {| _device := device;
     _color := (0, 0, 0);
     _brightness := 100;
     _thread := None;
     _running := false;
     _stopped := false;
     _display_keys := all_released;
     _game_keys := all_released;
     fired := [] |}.

(** [with self._lock: body].  The model runs one method or one poll cycle
    at a time, so the lock is free whenever it is taken; it is released
    on exit, also by an exception. *)
Definition with_lock {A : Type} (body : stateful t A) : stateful t A := body.

Definition issue (op : usb_op) : stateful t (list Z) :=
  fun self =>
    let (d, reply) := usb_issue op (_device self) in
    (set_device d self, reply).

Definition ctrl_transfer (bmRequestType bRequest wValue wIndex : Z)
           (data : list Z) (timeout : Z) : stateful t unit :=
  issue (CtrlTransfer bmRequestType bRequest wValue wIndex data timeout);;
  pass.

Definition write (endpoint : Z) (data : list Z) (timeout : Z)
  : stateful t unit :=
  issue (BulkWrite endpoint data timeout);; pass.

Definition read (endpoint size timeout : Z) : stateful t (list Z) :=
  issue (BulkRead endpoint size timeout).

(** The [color] property: getter and setter. *)
Definition color : stateful t (Z * Z * Z) :=
  self ← get; mret (_color self).

Definition color_setter (color : Z * Z * Z) : stateful t unit :=
  modify (set_color color);;
  let data := [7] ++ (let '(r, g, b) := color in [r; g; b]) in
  with_lock
    (ctrl_transfer (Z.lor TYPE_CLASS RECIP_INTERFACE) 0x09 0x307 0x01 data 10).

(** The [brightness] property: getter and setter. *)
Definition brightness : stateful t Z :=
  self ← get; mret (_brightness self).

Definition brightness_setter (brightness : Z) : stateful t unit :=
  (if decide (0 <= brightness <= 100) then pass
   else raise AssertionError);;
  modify (set_brightness brightness);;
  let data := [brightness; 0xe2; 0x12; 0x00; 0x8c; 0x11; 0x00; 0x10; 0x00] in
  with_lock
    (ctrl_transfer (Z.lor TYPE_VENDOR RECIP_INTERFACE) 0x0a 0 0 data 10).

(** [light], called with any number of positional arguments [keys]:
    [data[1] |= key] for each argument in turn. *)
Definition light (keys : list Z) : stateful t unit :=
  let data := [5; fold_left (fun acc key => Z.lor acc key) keys 0] in
  with_lock
    (ctrl_transfer (Z.lor TYPE_CLASS RECIP_INTERFACE) 0x09 0x305 0x01 data 10).

(** The body of the two nested loops of [show], on the local list
    [frame]. *)
Definition show_pixel (data : list Z) (x y : nat) : stateful (list Z) unit :=
  let index := (y * 320 * 3 + x * 3)%nat in
  '(red, green, blue) ← lift (Py.unpack3 (Py.slice data index (index + 3)));
  color ← lift (convert_color red green blue);
  Py.append (Z.land color 0xff);;
  Py.append (Z.shiftr color 8).

Definition show_frame (data : list Z) : stateful (list Z) unit :=
  Py.for_each (Py.range 320) (fun x =>
    Py.for_each (Py.range 240) (fun y =>
      show_pixel data x y)).

Definition show (data : list Z) : stateful t unit :=
  fun self =>
    match show_frame data [] with
    | (frame, Ok _) => with_lock (write 2 (FRAME_PREAMBLE ++ frame) 10) self
    | (_, Raise e) => (self, Raise e)
    end.

(** A key scan runs on one of the two dicts of the object and on its
    events. *)
Definition on_game_keys
           (scan : stateful (gmap GameKey.t bool * list notification) unit)
  : stateful t unit :=
  fun self =>
    let (st, out) := scan (_game_keys self, fired self) in
    (set_game_keys st self, out).

Definition on_display_keys
           (scan : stateful (gmap ControlKey.t bool * list notification) unit)
  : stateful t unit :=
  fun self =>
    let (st, out) := scan (_display_keys self, fired self) in
    (set_display_keys st self, out).

(** The body of the first [try] block of a poll cycle: the macro keys. *)
Definition read_game_keys : stateful t unit :=
  data ← with_lock (read 0x83 20 10);
  first ← lift (Py.index data 0);
  if bool_decide (first = 2) && bool_decide (length data = 4%nat) then
    d3 ← lift (Py.index data 3);
    d2 ← lift (Py.index data 2);
    d1 ← lift (Py.index data 1);
    let keys := Z.lor (Z.lor (Z.shiftl d3 16) (Z.shiftl d2 8)) d1 in
    on_game_keys (scan_keys Game keys)
  else pass.

Definition poll_game_keys : stateful t unit :=
  try_except_USBError read_game_keys.

(** The body of the second [try] block: the control pad. *)
Definition read_display_keys : stateful t unit :=
  data ← with_lock (read 0x81 2 10);
  keys ← lift (Py.index data 0);
  on_display_keys (scan_keys Control keys).

Definition poll_display_keys : stateful t unit :=
  try_except_USBError read_display_keys.

(** One turn of the [while] loop of [_run], after [wait] returned
    [False]. *)
Definition poll_cycle : stateful t unit :=
  poll_game_keys;; poll_display_keys.

(** [_run] when [_stopped.wait(0.05)] returns [False] [cycles] times and
    then [True]; an exception other than [USBError] ends the thread
    before [_running] is cleared. *)
Definition _run (cycles : nat) : stateful t unit :=
  Py.for_each (Py.range cycles) (fun _ => poll_cycle);;
  modify (set_running false).

Definition start : stateful t unit :=
  self ← get;
  if _running self then pass
  else
    modify (set_running true);;
    modify (set_thread (Some PollThread)).

(** [stop]: sets the flag and joins the thread.  [join] returns once
    [_run] has returned; without a thread object, [None.join] raises
    [AttributeError]. *)
Definition stop : stateful t unit :=
  modify (set_stopped true);;
  self ← get;
  match _thread self with
  | None => raise AttributeError
  | Some PollThread => pass
  end.

End G19.

(** ** The D-Bus service: class [Service]

    The service holds one [G19] object; its methods are modelled on that
    object's state. *)

Module Service.

Definition set_color (red green blue : Z) : stateful G19.t unit :=
  G19.color_setter (red, green, blue).

Definition get_color : stateful G19.t (Z * Z * Z) := G19.color.

Definition set_brightness (brightness : Z) : stateful G19.t unit :=
  G19.brightness_setter brightness.

Definition get_brightness : stateful G19.t Z := G19.brightness.

Definition show (frame : list Z) : stateful G19.t unit :=
  (if decide (length frame = (3 * 320 * 240)%nat) then pass
   else raise AssertionError);;
  G19.show frame.

Definition light (keys : Z) : stateful G19.t unit := G19.light [keys].

End Service.

(** ** Multi-subscriber events: class [Event]

    Handlers are compared with [==] by [list.remove], so they are values
    of a type [H] with decidable equality; what calling a handler does to
    the rest of the program, a state [W], is given by [invoke].  The
    handlers do not touch the event they are registered on. *)

Module Event.

Record t (H : Type) : Type := { _handlers : list H }.
Arguments _handlers {H} _.

(** [__init__] *)
Definition init {H : Type} : t H := {| _handlers := [] |}.

(** [__iadd__]: [self._handlers.append(handler)] *)
Definition iadd {H : Type} (handler : H) : stateful (t H) unit :=
  modify (fun self => {| _handlers := _handlers self ++ [handler] |}).

(** [l.remove(x)]: drops the first item equal to [x]; [None] stands for
    the [ValueError] raised when there is none. *)
Fixpoint list_remove {H : Type} `{EqDecision H} (x : H) (l : list H)
  : option (list H) :=
  match l with
  | [] => None
  | y :: l' =>
      if decide (y = x) then Some l'
      else match list_remove x l' with
           | Some l'' => Some (y :: l'')
           | None => None
           end
  end.

(** [__isub__]: [self._handlers.remove(handler)] *)
Definition isub {H : Type} `{EqDecision H} (handler : H)
  : stateful (t H) unit :=
  fun self =>
    match list_remove handler (_handlers self) with
    | Some l => ({| _handlers := l |}, Ok tt)
    | None => (self, Raise ValueError)
    end.

(** [fire]: calls every handler in turn with the arguments; an exception
    of a handler leaves [fire] at once. *)
Definition fire {H A W : Type} (invoke : H -> A -> stateful W unit)
           (self : t H) (arguments : A) : stateful W unit :=
  Py.for_each (_handlers self) (fun handler => invoke handler arguments).

End Event.

(** * Vocabulary of the properties

    Definitions used to state and prove what the driver does; none of
    them is part of the driver. *)

(** ** ColorCodec *)

(** The 8-bit channel values. *)
Definition bytes_0_255 : list Z := map Z.of_nat (seq 0 256).

(** On every 8-bit channel, scaling to [max_dest] is floor division. *)
Definition scale_channel_floors (max_dest : Z) : bool :=
  forallb (fun c => result_Z_eqb (scale_channel c max_dest)
                                 (Ok (c * max_dest / 255)))
          bytes_0_255.

(** ** Devices and transfers *)

(** A device that accepts every transfer and returns no bytes. *)
Definition quiet_device : usb_device :=
  {| responds := fun _ _ => Some []; transfers := [] |}.

(** What a command returns once its transfer [op] has been issued on the
    device [d]. *)
Definition transfer_outcome (d : usb_device) (op : usb_op) : result unit :=
  match responds d (transfers d) op with
  | Some _ => Ok tt
  | None => Raise USBError
  end.

(** The method issues exactly the transfer [op] and returns what the
    device answers to it. *)
Definition performs (m : stateful G19.t unit) (self : G19.t) (op : usb_op)
  : Prop :=
  transfers (G19._device (m self).1) = transfers (G19._device self) ++ [op]
  /\ (m self).2 = transfer_outcome (G19._device self) op.

(** The result is not a failed assertion. *)
Definition no_assert {A : Type} (m : result A) : Prop :=
  match m with
  | Raise AssertionError => False
  | _ => True
  end.

(** ** FrameCodec *)

(** The sixteen literal bytes at the head of [FRAME_PREAMBLE]. *)
Definition preamble_header : list Z :=
  [0x10; 0x0f; 0x00; 0x58; 0x02; 0x00; 0x00; 0x00; 0x00; 0x00;
   0x00; 0x3f; 0x01; 0xef; 0x00; 0x0f].

(** A pixel buffer as [show] expects it: 320 x 240 RGB triples, each
    channel a byte. *)
Definition valid_pixels (data : list Z) : Prop :=
  length data = (3 * 320 * 240)%nat /\ Forall (fun v => 0 <= v <= 255) data.

(** The two bytes that [show] appends for pixel [(x, y)]. *)
Definition pixel_bytes (data : list Z) (x y : nat) : list Z :=
  let index := (y * 320 * 3 + x * 3)%nat in
  match data !! index, data !! (index + 1)%nat, data !! (index + 2)%nat with
  | Some r, Some g, Some b =>
      match convert_color r g b with
      | Ok c => [Z.land c 0xff; Z.shiftr c 8]
      | Raise _ => []
      end
  | _, _, _ => []
  end.

Definition payload_of (data : list Z) : list Z :=
  flat_map (fun x => flat_map (fun y => pixel_bytes data x y) (seq 0 240))
           (seq 0 320).

(** The word [w] sits at payload offset [k]: low byte at [k], high byte
    at [k + 1]. *)
Definition word_at (payload : list Z) (k : nat) (w : Z) : Prop :=
  payload !! k = Some (Z.land w 0xff)
  /\ payload !! (k + 1)%nat = Some (Z.shiftr w 8).

(** A black frame with pixel (x=1, y=0) pure red and pixel (x=0, y=1)
    pure blue: byte 3 is the red channel of the first, byte 962 the blue
    channel of the second. *)
Definition two_pixels_byte (i : nat) : Z :=
  if bool_decide (i = 3%nat \/ i = 962%nat) then 255 else 0.

Definition two_pixels : list Z :=
  map two_pixels_byte (seq 0 (3 * 320 * 240)).

(** An all-black frame. *)
Definition black_frame : list Z := replicate (3 * 320 * 240) 0.

(** ** KeyState *)

(** What both key enumerations have in common: every member is listed
    once, and every member is one bit of its own. *)
Class KeyFlags (K : Type) `{IntEnum K} : Prop := {
  members_NoDup : NoDup (members (K := K));
  members_all : forall key : K, key ∈ members (K := K);
  value_pow2 : forall key : K, value key = 2 ^ Z.log2 (value key);
  value_disjoint :
    forall k1 k2 : K, k1 <> k2 -> Z.land (value k1) (value k2) = 0
}.

Section KeyStateSpec.
Context {K : Type} `{IntEnum K}.
Variable name : K -> Key.

(** The key is down in the raw bitmask [keys]. *)
Definition pressed (keys : Z) (key : K) : bool :=
  Py.truthy (Z.land keys (value key)).

(** The stored boolean of the key differs from the bitmask. *)
Definition changed (states : gmap K bool) (keys : Z) (key : K) : Prop :=
  states !! key <> Some (pressed keys key).

#[global] Instance changed_dec states keys key :
  Decision (changed states keys key).
Proof. unfold changed. apply _. Defined.

(** The notification for a key that changed to what [keys] says. *)
Definition transition (keys : Z) (key : K) : notification :=
  (if pressed keys key then KeyDown else KeyUp, name key).

(** The transitions of one pass, in declaration order. *)
Definition transitions (states : gmap K bool) (keys : Z) : list notification :=
  transition keys <$> filter (changed states keys) members.

End KeyStateSpec.


(** ** Ordering of the notifications *)

(** The notifications fired for one key, oldest first, as the sequence
    of their edges. *)
Definition key_edges (key : Key) (fired : list notification) : list edge :=
  (filter (fun n : notification => n.2 = key) fired).*1.

(** No edge is directly followed by the same edge. *)
Definition alternating (l : list edge) : Prop :=
  forall (i : nat) (e1 e2 : edge),
    l !! i = Some e1 -> l !! S i = Some e2 -> e1 <> e2.

(** The first edge, if any, is a key-down. *)
Definition down_first (l : list edge) : Prop := head l <> Some KeyUp.

Definition last_is_down (l : list edge) : bool :=
  match last l with
  | Some KeyDown => true
  | _ => false
  end.

Section KeyStateOrderSpec.
Context {K : Type} `{IntEnum K}.
Variable name : K -> Key.

(** The stored booleans agree with the notifications fired so far, and
    these are well ordered for every key. *)
Definition in_step (st : gmap K bool * list notification) : Prop :=
  (forall k : K, st.1 !! k = Some (last_is_down (key_edges (name k) st.2)))
  /\ (forall key : Key, alternating (key_edges key st.2)
                        /\ down_first (key_edges key st.2)).

(** Nothing was fired since [fired0] for the keys of the other
    enumeration. *)
Definition others_kept (fired0 : list notification)
           (st : gmap K bool * list notification) : Prop :=
  forall key : Key,
    (forall k : K, key <> name k) -> key_edges key st.2 = key_edges key fired0.

End KeyStateOrderSpec.

(** Both dicts agree with the notifications fired so far, which are well
    ordered for every key. *)
Definition consistent (self : G19.t) : Prop :=
  in_step Control (G19._display_keys self, G19.fired self)
  /\ in_step Game (G19._game_keys self, G19.fired self).

(** A method keeps the invariant, whether it returns or raises. *)
Definition preserves {A : Type} (m : stateful G19.t A) : Prop :=
  forall self, consistent self -> consistent (m self).1.

(** A caller's use of the object: one method call, or one turn of the
    polling loop run by the thread. *)
Inductive call : Type :=
| CallColor (color : Z * Z * Z)
| CallBrightness (brightness : Z)
| CallLight (keys : list Z)
| CallShow (data : list Z)
| CallStart
| CallStop
| CallPoll.

Definition perform (c : call) : stateful G19.t unit :=
  match c with
  | CallColor color => G19.color_setter color
  | CallBrightness brightness => G19.brightness_setter brightness
  | CallLight keys => G19.light keys
  | CallShow data => G19.show data
  | CallStart => G19.start
  | CallStop => G19.stop
  | CallPoll => G19.poll_cycle
  end.

(** The object after a sequence of calls; an exception goes to the
    caller and the object lives on. *)
Definition session (calls : list call) (self : G19.t) : G19.t :=
  fold_left (fun self c => (perform c self).1) calls self.

(** A control pad that reports OK held during the first two cycles and
    released afterwards; the macro-key endpoint always times out. *)
Definition ok_pad : usb_device :=
  {| responds := fun log op =>
       match op with
       | BulkRead 0x81 _ _ =>
           Some [if (length log <? 4)%nat then 0x08 else 0x00; 0x00]
       | BulkRead _ _ _ => None
       | _ => Some []
       end;
     transfers := [] |}.

(** The session after [start] and [stop] on a freshly acquired quiet
    device. *)
Definition stopped_session : G19.t :=
  (G19.stop (G19.start (G19.init quiet_device)).1).1.

(** ** Decoding a packed colour word *)

(** The three bit fields of a 5:6:5 word. *)
Definition red_field (w : Z) : Z := Z.shiftr w 11.
Definition green_field (w : Z) : Z := Z.land (Z.shiftr w 5) 0x3f.
Definition blue_field (w : Z) : Z := Z.land w 0x1f.

(** Rescaling a channel scaled to [max_dest] loses at most [step]. *)
Definition rescale_within (max_dest step : Z) : bool :=
  forallb (fun c =>
             let d := c - (c * max_dest / 255) * 255 / max_dest in
             (0 <=? d) && (d <=? step))
          bytes_0_255.

(** ** The polling loop *)

(** The two reads of a poll cycle. *)
Definition game_read : usb_op := BulkRead 0x83 20 10.
Definition pad_read : usb_op := BulkRead 0x81 2 10.

(** What the device answers to [op] when the object issues it now. *)
Definition answer (self : G19.t) (op : usb_op) : option (list Z) :=
  responds (G19._device self) (transfers (G19._device self)) op.

(** The object once [op] has been issued: only the list of transfers
    has grown. *)
Definition after_transfer (op : usb_op) (self : G19.t) : G19.t :=
  G19.set_device
    {| responds := responds (G19._device self);
       transfers := transfers (G19._device self) ++ [op] |} self.

(** Both dicts hold every key of their enumeration. *)
Definition total_keys (self : G19.t) : Prop :=
  (forall k : ControlKey.t, is_Some (G19._display_keys self !! k))
  /\ (forall k : GameKey.t, is_Some (G19._game_keys self !! k)).

(** The bitmask that [_run] builds from a macro-key packet
    [[2, b1, b2, b3]]. *)
Definition macro_mask (b1 b2 b3 : Z) : Z :=
  Z.lor (Z.lor (Z.shiftl b3 16) (Z.shiftl b2 8)) b1.


(** ** What a method leaves alone *)

(** The method never changes what [f] reads off the object, whether it
    returns or raises. *)
Definition keeps {A B : Type} (f : G19.t -> B) (m : stateful G19.t A)
  : Prop :=
  forall self, f (m self).1 = f self.

(** The key states and the notifications fired so far. *)
Definition key_view (self : G19.t)
  : gmap ControlKey.t bool * gmap GameKey.t bool * list notification :=
  (G19._display_keys self, G19._game_keys self, G19.fired self).

(** The cached colour and brightness and the lifecycle fields. *)
Definition session_view (self : G19.t)
  : Z * Z * Z * Z * option thread * bool * bool :=
  (G19._color self, G19._brightness self, G19._thread self,
   G19._running self, G19._stopped self).

(** The colour and the brightness that a sequence of calls leaves in the
    cache: the last colour set, and the last brightness set that was in
    range. *)
Definition last_color (calls : list call) (c0 : Z * Z * Z) : Z * Z * Z :=
  fold_left (fun c k => match k with CallColor c' => c' | _ => c end)
            calls c0.

Definition last_brightness (calls : list call) (b0 : Z) : Z :=
  fold_left (fun b k =>
               match k with
               | CallBrightness b' =>
                   if decide (0 <= b' <= 100) then b' else b
               | _ => b
               end)
            calls b0.

(** ** The indicator LEDs *)

#[global] Instance LightKeys_eq_dec : EqDecision LightKeys.t.
Proof. solve_decision. Defined.

(** The mask with exactly the bits of the chosen LEDs. *)
Definition led_mask (m1 m2 m3 mr : bool) : Z :=
  (if m1 then 0x80 else 0) + (if m2 then 0x40 else 0)
  + (if m3 then 0x20 else 0) + (if mr then 0x10 else 0).

(** * Proofs *)

(** ** ColorCodec *)

Lemma result_Z_eqb_eq (a b : result Z) : result_Z_eqb a b = true -> a = b.
Proof.
  destruct a as [x|e], b as [y|e']; simpl; try discriminate.
  intros H. apply Z.eqb_eq in H. now subst.
Qed.

Lemma in_bytes_0_255 (c : Z) : 0 <= c <= 255 -> In c bytes_0_255.
Proof.
  intros H. unfold bytes_0_255.
  rewrite <- (Z2Nat.id c) by lia.
  apply in_map, in_seq. lia.
Qed.

Lemma scale_channel_floors_31 : scale_channel_floors 31 = true.
Proof. vm_compute. reflexivity. Qed.

Lemma scale_channel_floors_63 : scale_channel_floors 63 = true.
Proof. vm_compute. reflexivity. Qed.

Lemma scale_channel_spec (c max_dest : Z) :
  scale_channel_floors max_dest = true ->
  0 <= c <= 255 ->
  scale_channel c max_dest = Ok (c * max_dest / 255).
Proof.
  intros Hall Hc. unfold scale_channel_floors in Hall.
  rewrite forallb_forall in Hall.
  apply result_Z_eqb_eq, Hall, in_bytes_0_255, Hc.
Qed.

Lemma scale_channel_5 (c : Z) :
  0 <= c <= 255 -> scale_channel c (2 ^ 5 - 1) = Ok (c * 31 / 255).
Proof. apply (scale_channel_spec c 31 scale_channel_floors_31). Qed.

Lemma scale_channel_6 (c : Z) :
  0 <= c <= 255 -> scale_channel c (2 ^ 6 - 1) = Ok (c * 63 / 255).
Proof. apply (scale_channel_spec c 63 scale_channel_floors_63). Qed.

Lemma convert_color_floor (r g b : Z) :
  0 <= r <= 255 -> 0 <= g <= 255 -> 0 <= b <= 255 ->
  convert_color r g b =
  Ok (Z.lor (Z.lor (Z.shiftl (r * 31 / 255) 11) (Z.shiftl (g * 63 / 255) 5))
            (b * 31 / 255)).
Proof.
  intros Hr Hg Hb. unfold convert_color.
  rewrite (scale_channel_5 r Hr), (scale_channel_6 g Hg), (scale_channel_5 b Hb).
  reflexivity.
Qed.

Lemma lor_below_pow2 (a b n : Z) :
  0 <= n -> 0 <= a < 2 ^ n -> 0 <= b < 2 ^ n -> 0 <= Z.lor a b < 2 ^ n.
Proof.
  intros Hn Ha Hb.
  destruct (Z.eq_dec a 0) as [->|Ha0]; [rewrite Z.lor_0_l; lia|].
  destruct (Z.eq_dec b 0) as [->|Hb0]; [rewrite Z.lor_0_r; lia|].
  assert (H0 : 0 <= Z.lor a b) by (apply Z.lor_nonneg; lia).
  split; [exact H0|].
  assert (Hpos : 0 < Z.lor a b).
  { destruct (Z.eq_dec (Z.lor a b) 0) as [E|E]; [|lia].
    apply Z.lor_eq_0_iff in E. lia. }
  apply Z.log2_lt_pow2; [exact Hpos|].
  rewrite Z.log2_lor by lia.
  apply Z.max_lub_lt; apply Z.log2_lt_pow2; lia.
Qed.

Lemma packed_word_range (r5 g6 b5 : Z) :
  0 <= r5 <= 31 -> 0 <= g6 <= 63 -> 0 <= b5 <= 31 ->
  0 <= Z.lor (Z.lor (Z.shiftl r5 11) (Z.shiftl g6 5)) b5 < 2 ^ 16.
Proof.
  intros Hr Hg Hb.
  rewrite !Z.shiftl_mul_pow2 by lia.
  apply lor_below_pow2; [lia| |lia].
  apply lor_below_pow2; lia.
Qed.

Lemma scaled_range (c m : Z) :
  0 <= c <= 255 -> 0 <= m -> 0 <= c * m / 255 <= m.
Proof.
  intros Hc Hm. split.
  - apply Z.div_pos; nia.
  - apply Z.div_le_upper_bound; nia.
Qed.

(** C1: on the whole 8-bit domain [convert_color] returns the 16-bit word
    [(floor(r*31/255) << 11) | (floor(g*63/255) << 5) | floor(b*31/255)]:
    the float division followed by [int()] is integer floor division, not
    rounding to nearest (blue 254 scales to 30, not 31); black encodes to
    0 and white to 0xFFFF. *)
Theorem convert_color_truncating_565 :
  (forall r g b : Z,
      0 <= r <= 255 -> 0 <= g <= 255 -> 0 <= b <= 255 ->
      convert_color r g b =
      Ok (Z.lor (Z.lor (Z.shiftl (r * 31 / 255) 11)
                       (Z.shiftl (g * 63 / 255) 5))
                (b * 31 / 255))
      /\ 0 <= Z.lor (Z.lor (Z.shiftl (r * 31 / 255) 11)
                           (Z.shiftl (g * 63 / 255) 5))
                    (b * 31 / 255) < 2 ^ 16)
  /\ convert_color 0 0 0 = Ok 0
  /\ convert_color 255 255 255 = Ok 0xFFFF
  /\ convert_color 0 0 254 = Ok 30.
Proof.
  split; [|repeat split; vm_compute; reflexivity].
  intros r g b Hr Hg Hb. split.
  - apply convert_color_floor; assumption.
  - apply packed_word_range; apply scaled_range; lia.
Qed.

Lemma convert_color_truncating_565_witness :
  0 <= 255 <= 255 /\ 0 <= 128 <= 255 /\ 0 <= 7 <= 255 /\
  convert_color 255 128 7 = Ok 0xFBE0.
Proof.
  assert (Hr : 0 <= 255 <= 255) by lia.
  assert (Hg : 0 <= 128 <= 255) by lia.
  assert (Hb : 0 <= 7 <= 255) by lia.
  refine (conj Hr (conj Hg (conj Hb _))).
  exact (proj1 (proj1 convert_color_truncating_565 255 128 7 Hr Hg Hb)).
Defined.

(** ** DeviceSession commands *)

Lemma ctrl_transfer_spec (ty rq v i : Z) (data : list Z) (tmo : Z)
      (self : G19.t) :
  G19.ctrl_transfer ty rq v i data tmo self =
  (G19.set_device
     {| responds := responds (G19._device self);
        transfers := transfers (G19._device self)
                     ++ [CtrlTransfer ty rq v i data tmo] |} self,
   transfer_outcome (G19._device self) (CtrlTransfer ty rq v i data tmo)).
Proof.
  unfold G19.ctrl_transfer, G19.issue, usb_issue, transfer_outcome.
  unfold mbind, stateful_bind, mret, stateful_ret.
  destruct (responds _ _ _); reflexivity.
Qed.

Lemma write_spec (ep : Z) (data : list Z) (tmo : Z) (self : G19.t) :
  G19.write ep data tmo self =
  (G19.set_device
     {| responds := responds (G19._device self);
        transfers := transfers (G19._device self)
                     ++ [BulkWrite ep data tmo] |} self,
   transfer_outcome (G19._device self) (BulkWrite ep data tmo)).
Proof.
  unfold G19.write, G19.issue, usb_issue, transfer_outcome.
  unfold mbind, stateful_bind, mret, stateful_ret.
  destruct (responds _ _ _); reflexivity.
Qed.

Lemma fold_left_lor (keys : list Z) (acc : Z) :
  fold_left (fun a key => Z.lor a key) keys acc = Z.lor acc (foldr Z.lor 0 keys).
Proof.
  revert acc. induction keys as [|key keys IH]; intros acc; simpl.
  - now rewrite Z.lor_0_r.
  - rewrite IH. now rewrite Z.lor_assoc.
Qed.

Lemma testbit_foldr_lor (keys : list Z) (i : Z) :
  Z.testbit (foldr Z.lor 0 keys) i = existsb (fun key => Z.testbit key i) keys.
Proof.
  induction keys as [|key keys IH]; simpl.
  - apply Z.bits_0.
  - now rewrite Z.lor_spec, IH.
Qed.

(** C7: after the colour setter has run on [(r, g, b)] the stored colour
    is [(r, g, b)] whatever the device answered to the control transfer
    carrying [[0x07, r, g, b]]; the getter returns the stored triple and
    leaves the object, and with it the list of transfers, untouched. *)
Theorem color_setter_caches (r g b : Z) (self : G19.t) :
  let op := CtrlTransfer (Z.lor TYPE_CLASS RECIP_INTERFACE) 0x09 0x307 0x01
                         [0x07; r; g; b] 10 in
  let out := G19.color_setter (r, g, b) self in
  G19._color out.1 = (r, g, b)
  /\ transfers (G19._device out.1) = transfers (G19._device self) ++ [op]
  /\ out.2 = transfer_outcome (G19._device self) op
  /\ G19.color out.1 = (out.1, Ok (r, g, b)).
Proof.
  intros op out.
  assert (Hrun : out = G19.ctrl_transfer (Z.lor TYPE_CLASS RECIP_INTERFACE)
                         0x09 0x307 0x01 [0x07; r; g; b] 10
                         (G19.set_color (r, g, b) self)) by reflexivity.
  rewrite ctrl_transfer_spec in Hrun. rewrite Hrun. repeat split.
Qed.

(** C6: the brightness setter raises its assertion error exactly when
    [b] is outside [0, 100], and then neither transfers nor stores
    anything; for [b] inside the range it stores [b], so that the getter
    returns [b], and issues the vendor control transfer (request 0x0a)
    with payload [[b, 0xe2, 0x12, 0x00, 0x8c, 0x11, 0x00, 0x10, 0x00]],
    returning normally when the device accepts it.  101 and -1 are
    rejected, 0 and 100 are not. *)
Theorem brightness_setter_range (b : Z) (self : G19.t) :
  let op := CtrlTransfer (Z.lor TYPE_VENDOR RECIP_INTERFACE) 0x0a 0 0
                         [b; 0xe2; 0x12; 0x00; 0x8c; 0x11; 0x00; 0x10; 0x00]
                         10 in
  let out := G19.brightness_setter b self in
  (out.2 = Raise AssertionError <-> ~ (0 <= b <= 100))
  /\ (~ (0 <= b <= 100) -> out.1 = self)
  /\ (0 <= b <= 100 ->
      transfers (G19._device out.1) = transfers (G19._device self) ++ [op]
      /\ out.2 = transfer_outcome (G19._device self) op
      /\ G19.brightness out.1 = (out.1, Ok b))
  /\ (G19.brightness_setter 101 self).2 = Raise AssertionError
  /\ (G19.brightness_setter (-1) self).2 = Raise AssertionError
  /\ (G19.brightness_setter 0 self).2 <> Raise AssertionError
  /\ (G19.brightness_setter 100 self).2 <> Raise AssertionError.
Proof.
  assert (Hin : forall v, 0 <= v <= 100 ->
            G19.brightness_setter v self =
            G19.ctrl_transfer (Z.lor TYPE_VENDOR RECIP_INTERFACE) 0x0a 0 0
              [v; 0xe2; 0x12; 0x00; 0x8c; 0x11; 0x00; 0x10; 0x00] 10
              (G19.set_brightness v self)).
  { intros v Hv. unfold G19.brightness_setter, G19.with_lock.
    destruct (decide (0 <= v <= 100)) as [_|Hn]; [reflexivity|tauto]. }
  assert (Hout : forall v, ~ (0 <= v <= 100) ->
            G19.brightness_setter v self = (self, Raise AssertionError)).
  { intros v Hv. unfold G19.brightness_setter.
    destruct (decide (0 <= v <= 100)) as [Hy|_]; [tauto|reflexivity]. }
  assert (Hno : forall v, 0 <= v <= 100 ->
            (G19.brightness_setter v self).2 <> Raise AssertionError).
  { intros v Hv. rewrite (Hin v Hv), ctrl_transfer_spec. simpl.
    unfold transfer_outcome. destruct (responds _ _ _); discriminate. }
  cbv zeta. split; [|split; [|split; [|split; [|split; [|split]]]]].
  - split.
    + intros Hraise Hb. exact (Hno b Hb Hraise).
    + intros Hb. now rewrite (Hout b Hb).
  - intros Hb. now rewrite (Hout b Hb).
  - intros Hb. rewrite (Hin b Hb), ctrl_transfer_spec. simpl. repeat split.
  - rewrite Hout; [reflexivity|lia].
  - rewrite Hout; [reflexivity|lia].
  - apply Hno; lia.
  - apply Hno; lia.
Qed.

Lemma brightness_setter_range_witness :
  0 <= 50 <= 100
  /\ (G19.brightness_setter 50 (G19.init quiet_device)).2 = Ok tt
  /\ G19.brightness (G19.brightness_setter 50 (G19.init quiet_device)).1
     = ((G19.brightness_setter 50 (G19.init quiet_device)).1, Ok 50).
Proof.
  assert (Hb : 0 <= 50 <= 100) by lia.
  pose proof (brightness_setter_range 50 (G19.init quiet_device)) as H.
  cbv zeta in H.
  destruct H as (_ & _ & Hin & _).
  destruct (Hin Hb) as (_ & Hout & Hget).
  exact (conj Hb (conj Hout Hget)).
Defined.

(** C10: for any list of arguments, [light] issues one class control
    transfer (request 0x09, value 0x0305, index 1) whose payload is
    [[5, m]] with [m] the bitwise OR of the arguments: bit [i] of [m] is
    set exactly when it is set in one of them.  Without arguments the
    payload is [[5, 0]]. *)
Theorem light_sends_or_of_keys (keys : list Z) (self : G19.t) :
  let m := foldr Z.lor 0 keys in
  let op := CtrlTransfer (Z.lor TYPE_CLASS RECIP_INTERFACE) 0x09 0x305 0x01
                         [5; m] 10 in
  G19.light keys self =
  (G19.set_device
     {| responds := responds (G19._device self);
        transfers := transfers (G19._device self) ++ [op] |} self,
   transfer_outcome (G19._device self) op)
  /\ (forall i : Z,
         Z.testbit m i = existsb (fun key => Z.testbit key i) keys)
  /\ transfers (G19._device (G19.light [] self).1)
     = transfers (G19._device self)
       ++ [CtrlTransfer (Z.lor TYPE_CLASS RECIP_INTERFACE) 0x09 0x305 0x01
                        [5; 0] 10].
Proof.
  cbv zeta. split; [|split].
  - unfold G19.light, G19.with_lock.
    rewrite ctrl_transfer_spec, fold_left_lor, Z.lor_0_l. reflexivity.
  - intros i. apply testbit_foldr_lor.
  - unfold G19.light, G19.with_lock. rewrite ctrl_transfer_spec. reflexivity.
Qed.

(** ** FrameCodec *)

Section Loops.
Context {A B : Type}.

Lemma for_each_appends (l : list A) (body : A -> stateful (list B) unit)
      (f : A -> list B) :
  (forall a acc, a ∈ l -> body a acc = (acc ++ f a, Ok tt)) ->
  forall acc, Py.for_each l body acc = (acc ++ flat_map f l, Ok tt).
Proof.
  induction l as [|a l IH]; intros Hbody acc; simpl.
  - now rewrite app_nil_r.
  - unfold mbind, stateful_bind.
    rewrite Hbody by apply list_elem_of_here.
    rewrite IH by (intros; apply Hbody; now apply list_elem_of_further).
    now rewrite app_assoc.
Qed.

Lemma length_flat_map_const (l : list A) (f : A -> list B) (c : nat) :
  (forall a, a ∈ l -> length (f a) = c) ->
  length (flat_map f l) = (length l * c)%nat.
Proof.
  induction l as [|a l IH]; intros Hlen; simpl; [reflexivity|].
  rewrite length_app, Hlen by apply list_elem_of_here.
  rewrite IH by (intros; apply Hlen; now apply list_elem_of_further).
  reflexivity.
Qed.

Lemma lookup_flat_map_const (l : list A) (f : A -> list B) (c i j : nat)
      (a : A) :
  (forall a', a' ∈ l -> length (f a') = c) ->
  l !! i = Some a -> (j < c)%nat ->
  flat_map f l !! (i * c + j)%nat = f a !! j.
Proof.
  revert i. induction l as [|a' l IH]; intros i Hlen Hi Hj; [discriminate|].
  simpl. destruct i as [|i]; simpl in Hi.
  - injection Hi as ->. simpl.
    apply lookup_app_l. rewrite Hlen by apply list_elem_of_here. exact Hj.
  - rewrite lookup_app_r; rewrite Hlen by apply list_elem_of_here; [|lia].
    replace (S i * c + j - c)%nat with (i * c + j)%nat by lia.
    apply IH; [|exact Hi|exact Hj].
    intros; apply Hlen; now apply list_elem_of_further.
Qed.

End Loops.

Lemma slice_triple (data : list Z) (index : nat) :
  (index + 3 <= length data)%nat ->
  exists r g b,
    data !! index = Some r /\ data !! (index + 1)%nat = Some g
    /\ data !! (index + 2)%nat = Some b
    /\ Py.slice data index (index + 3) = [r; g; b].
Proof.
  intros Hlen. unfold Py.slice.
  replace (index + 3 - index)%nat with 3%nat by lia.
  assert (Hd : (3 <= length (drop index data))%nat)
    by (rewrite length_drop; lia).
  pose proof (lookup_drop data index 0) as H0.
  pose proof (lookup_drop data index 1) as H1.
  pose proof (lookup_drop data index 2) as H2.
  rewrite Nat.add_0_r in H0.
  destruct (drop index data) as [|r [|g [|b rest]]]; simpl in Hd; try lia.
  exists r, g, b. simpl in H0, H1, H2. auto.
Qed.

Lemma valid_pixels_lookup (data : list Z) (i : nat) (v : Z) :
  valid_pixels data -> data !! i = Some v -> 0 <= v <= 255.
Proof.
  intros [_ Hall] Hi. rewrite Forall_lookup in Hall. exact (Hall i v Hi).
Qed.

Lemma pixel_index_bound (x y : nat) :
  (x < 320)%nat -> (y < 240)%nat ->
  (y * 320 * 3 + x * 3 + 3 <= 3 * 320 * 240)%nat.
Proof. lia. Qed.

(** On a valid buffer every pixel has its triple and its 16-bit word. *)
Lemma pixel_word_valid (data : list Z) (x y : nat) :
  valid_pixels data -> (x < 320)%nat -> (y < 240)%nat ->
  exists r g b c,
    data !! (y * 320 * 3 + x * 3)%nat = Some r
    /\ data !! (y * 320 * 3 + x * 3 + 1)%nat = Some g
    /\ data !! (y * 320 * 3 + x * 3 + 2)%nat = Some b
    /\ Py.slice data (y * 320 * 3 + x * 3) (y * 320 * 3 + x * 3 + 3)
       = [r; g; b]
    /\ convert_color r g b = Ok c
    /\ pixel_bytes data x y = [Z.land c 0xff; Z.shiftr c 8].
Proof.
  intros Hvalid Hx Hy.
  destruct (slice_triple data (y * 320 * 3 + x * 3)) as (r & g & b & Hr & Hg & Hb & Hs).
  { destruct Hvalid as [-> _]. now apply pixel_index_bound. }
  pose proof (valid_pixels_lookup _ _ _ Hvalid Hr) as Br.
  pose proof (valid_pixels_lookup _ _ _ Hvalid Hg) as Bg.
  pose proof (valid_pixels_lookup _ _ _ Hvalid Hb) as Bb.
  pose proof (convert_color_floor r g b Br Bg Bb) as Hc.
  eexists r, g, b, _. repeat (split; [eassumption|]).
  unfold pixel_bytes. cbv zeta. now rewrite Hr, Hg, Hb, Hc.
Qed.

Lemma show_pixel_valid (data : list Z) (x y : nat) (frame : list Z) :
  valid_pixels data -> (x < 320)%nat -> (y < 240)%nat ->
  G19.show_pixel data x y frame = (frame ++ pixel_bytes data x y, Ok tt).
Proof.
  intros Hvalid Hx Hy.
  destruct (pixel_word_valid data x y Hvalid Hx Hy)
    as (r & g & b & c & _ & _ & _ & Hs & Hc & Hbytes).
  unfold G19.show_pixel. cbv zeta. rewrite Hs, Hbytes. simpl.
  unfold mbind, stateful_bind, lift. rewrite Hc. simpl.
  unfold Py.append, modify. now rewrite <- app_assoc.
Qed.

Lemma pixel_bytes_length (data : list Z) (x y : nat) :
  valid_pixels data -> (x < 320)%nat -> (y < 240)%nat ->
  length (pixel_bytes data x y) = 2%nat.
Proof.
  intros Hvalid Hx Hy.
  destruct (pixel_word_valid data x y Hvalid Hx Hy)
    as (r & g & b & c & _ & _ & _ & _ & _ & ->).
  reflexivity.
Qed.

Lemma show_frame_valid (data : list Z) :
  valid_pixels data -> G19.show_frame data [] = (payload_of data, Ok tt).
Proof.
  intros Hvalid. unfold G19.show_frame, Py.range.
  rewrite (for_each_appends (seq 0 320) _
             (fun x => flat_map (fun y => pixel_bytes data x y) (seq 0 240))).
  - rewrite app_nil_l. reflexivity.
  - intros x acc Hx. apply elem_of_seq in Hx.
    apply for_each_appends.
    intros y acc' Hy. apply elem_of_seq in Hy.
    apply show_pixel_valid; [exact Hvalid|lia|lia].
Qed.

Lemma column_length (data : list Z) (x : nat) :
  valid_pixels data -> (x < 320)%nat ->
  length (flat_map (fun y => pixel_bytes data x y) (seq 0 240)) = 480%nat.
Proof.
  intros Hvalid Hx.
  rewrite (length_flat_map_const _ _ 2), length_seq; [lia|].
  intros y Hy. apply elem_of_seq in Hy.
  apply pixel_bytes_length; [exact Hvalid|lia|lia].
Qed.

Lemma payload_length (data : list Z) :
  valid_pixels data -> length (payload_of data) = (2 * 320 * 240)%nat.
Proof.
  intros Hvalid. unfold payload_of.
  rewrite (length_flat_map_const _ _ 480), length_seq; [lia|].
  intros x Hx. apply elem_of_seq in Hx.
  apply column_length; [exact Hvalid|lia].
Qed.

Lemma payload_lookup (data : list Z) (x y j : nat) :
  valid_pixels data -> (x < 320)%nat -> (y < 240)%nat -> (j < 2)%nat ->
  payload_of data !! (2 * (x * 240 + y) + j)%nat = pixel_bytes data x y !! j.
Proof.
  intros Hvalid Hx Hy Hj. unfold payload_of.
  replace (2 * (x * 240 + y) + j)%nat with (x * 480 + (y * 2 + j))%nat by lia.
  rewrite (lookup_flat_map_const (seq 0 320) _ 480 x (y * 2 + j) x).
  - apply (lookup_flat_map_const (seq 0 240) _ 2 y j y).
    + intros y' Hy'. apply elem_of_seq in Hy'.
      apply pixel_bytes_length; [exact Hvalid|lia|lia].
    + now apply lookup_seq_lt.
    + exact Hj.
  - intros x' Hx'. apply elem_of_seq in Hx'.
    apply column_length; [exact Hvalid|lia].
  - now apply lookup_seq_lt.
  - lia.
Qed.

Lemma show_valid (data : list Z) (self : G19.t) :
  valid_pixels data ->
  G19.show data self = G19.write 2 (FRAME_PREAMBLE ++ payload_of data) 10 self.
Proof.
  intros Hvalid. unfold G19.show. now rewrite (show_frame_valid data Hvalid).
Qed.

Lemma payload_offset_pixel (k : nat) :
  (k < 2 * 320 * 240)%nat ->
  exists x y j,
    (x < 320)%nat /\ (y < 240)%nat /\ (j < 2)%nat
    /\ k = (2 * (x * 240 + y) + j)%nat.
Proof.
  intros Hk.
  exists (k / 2 / 240)%nat, ((k / 2) mod 240)%nat, (k mod 2)%nat.
  pose proof (Nat.div_mod_eq k 2) as E2.
  pose proof (Nat.div_mod_eq (k / 2) 240) as E240.
  pose proof (Nat.mod_upper_bound k 2 ltac:(lia)) as B2.
  pose proof (Nat.mod_upper_bound (k / 2) 240 ltac:(lia)) as B240.
  lia.
Qed.

Lemma FRAME_PREAMBLE_length : length FRAME_PREAMBLE = 512%nat.
Proof. reflexivity. Qed.

Lemma encoded_frame_length (data : list Z) :
  valid_pixels data ->
  Z.of_nat (length (FRAME_PREAMBLE ++ payload_of data)) = 512 + 153600.
Proof.
  intros Hvalid.
  rewrite length_app, FRAME_PREAMBLE_length, (payload_length data Hvalid).
  lia.
Qed.

Lemma show_transfers (data : list Z) (self : G19.t) :
  valid_pixels data ->
  transfers (G19._device (G19.show data self).1)
  = transfers (G19._device self)
    ++ [BulkWrite 2 (FRAME_PREAMBLE ++ payload_of data) 10]
  /\ (G19.show data self).2
     = transfer_outcome (G19._device self)
         (BulkWrite 2 (FRAME_PREAMBLE ++ payload_of data) 10).
Proof.
  intros Hvalid. rewrite (show_valid data self Hvalid), write_spec.
  split; reflexivity.
Qed.

Lemma black_frame_valid : valid_pixels black_frame.
Proof.
  split; [apply length_replicate|].
  apply Forall_replicate. lia.
Qed.

(** C2, as stated, fails: the frame written for the all-black buffer is
    not 272 + 153,600 bytes long. *)
Lemma show_frame_not_272_preamble :
  exists frame,
    transfers (G19._device (G19.show black_frame (G19.init quiet_device)).1)
    = [BulkWrite 2 frame 10]
    /\ Z.of_nat (length frame) <> 272 + 153600.
Proof.
  exists (FRAME_PREAMBLE ++ payload_of black_frame). split.
  - exact (proj1 (show_transfers black_frame (G19.init quiet_device)
                    black_frame_valid)).
  - rewrite (encoded_frame_length black_frame black_frame_valid). lia.
Qed.

(** C2, amended: for every valid 230,400-byte pixel buffer the frame
    written by [show] is exactly 512 + 153,600 bytes long: the 512-byte
    preamble (16 literal header bytes, then the bytes 16..255, then
    0..255) followed by 2*320*240 payload bytes; its first 16 bytes are
    the literal header. *)
Theorem show_frame_layout (data : list Z) (self : G19.t) :
  valid_pixels data ->
  exists payload,
    transfers (G19._device (G19.show data self).1)
    = transfers (G19._device self)
      ++ [BulkWrite 2 (FRAME_PREAMBLE ++ payload) 10]
    /\ FRAME_PREAMBLE
       = preamble_header ++ map Z.of_nat (seq 16 240)
                         ++ map Z.of_nat (seq 0 256)
    /\ Z.of_nat (length FRAME_PREAMBLE) = 512
    /\ Z.of_nat (length payload) = 2 * 320 * 240
    /\ Z.of_nat (length (FRAME_PREAMBLE ++ payload)) = 512 + 153600
    /\ take 16 (FRAME_PREAMBLE ++ payload) = preamble_header.
Proof.
  intros Hvalid. exists (payload_of data).
  split; [exact (proj1 (show_transfers data self Hvalid))|].
  split; [reflexivity|].
  split; [rewrite FRAME_PREAMBLE_length; lia|].
  split; [rewrite (payload_length data Hvalid); lia|].
  split; [exact (encoded_frame_length data Hvalid)|].
  reflexivity.
Qed.

Lemma show_frame_layout_witness :
  valid_pixels black_frame
  /\ exists payload,
      transfers (G19._device (G19.show black_frame (G19.init quiet_device)).1)
      = [BulkWrite 2 (FRAME_PREAMBLE ++ payload) 10]
      /\ Z.of_nat (length (FRAME_PREAMBLE ++ payload)) = 154112.
Proof.
  split; [exact black_frame_valid|].
  destruct (show_frame_layout black_frame (G19.init quiet_device)
              black_frame_valid) as (payload & Hw & _ & _ & _ & Hlen & _).
  exists payload. split; [exact Hw|exact Hlen].
Defined.

Lemma two_pixels_valid : valid_pixels two_pixels.
Proof.
  split.
  - unfold two_pixels. now rewrite length_map, length_seq.
  - unfold two_pixels. rewrite Forall_forall. intros v Hv.
    apply list_elem_of_fmap in Hv as (i & -> & _).
    unfold two_pixels_byte. case_bool_decide; lia.
Qed.

Lemma two_pixels_lookup (i : nat) :
  (i < 3 * 320 * 240)%nat -> two_pixels !! i = Some (two_pixels_byte i).
Proof.
  intros Hi. unfold two_pixels.
  rewrite list_lookup_fmap, lookup_seq_lt by exact Hi. reflexivity.
Qed.

Lemma two_pixels_bytes (x y : nat) :
  (x < 320)%nat -> (y < 240)%nat ->
  pixel_bytes two_pixels x y =
  if bool_decide (x = 1%nat /\ y = 0%nat) then [0x00; 0xf8]
  else if bool_decide (x = 0%nat /\ y = 1%nat) then [0x1f; 0x00]
       else [0x00; 0x00].
Proof.
  intros Hx Hy. unfold pixel_bytes. cbv zeta.
  rewrite !two_pixels_lookup by lia.
  unfold two_pixels_byte.
  repeat case_bool_decide; try lia; vm_compute; reflexivity.
Qed.

Lemma two_pixels_payload (k : nat) (v : Z) :
  payload_of two_pixels !! k = Some v -> v <> 0 ->
  (k = 2%nat /\ v = 0x1f) \/ (k = 481%nat /\ v = 0xf8).
Proof.
  intros Hk Hv.
  assert (Hlt : (k < 2 * 320 * 240)%nat).
  { rewrite <- (payload_length two_pixels two_pixels_valid).
    eapply lookup_lt_Some, Hk. }
  destruct (payload_offset_pixel k Hlt) as (x & y & j & Hx & Hy & Hj & ->).
  rewrite (payload_lookup two_pixels x y j two_pixels_valid Hx Hy Hj) in Hk.
  rewrite (two_pixels_bytes x y Hx Hy) in Hk.
  repeat case_bool_decide;
    destruct j as [|[|j]]; simpl in Hk; try lia;
    injection Hk as <-; try congruence; [right|left]; split; (lia || reflexivity).
Qed.

(** C3, as stated, fails in its last part: in the frame written for
    [two_pixels] the word of pixel (x=1, y=0), 0xF800, sits at payload
    offset 480 and the word of pixel (x=0, y=1), 0x001F, at offset 2, and
    neither occurs anywhere else, so the former does not come first. *)
Lemma pixel_1_0_not_before_pixel_0_1 :
  Py.slice two_pixels 3 6 = [255; 0; 0]
  /\ convert_color 255 0 0 = Ok 0xf800
  /\ Py.slice two_pixels 960 963 = [0; 0; 255]
  /\ convert_color 0 0 255 = Ok 0x001f
  /\ exists payload,
      transfers (G19._device (G19.show two_pixels (G19.init quiet_device)).1)
      = [BulkWrite 2 (FRAME_PREAMBLE ++ payload) 10]
      /\ word_at payload 480 0xf800
      /\ word_at payload 2 0x001f
      /\ ~ (exists k10 k01 : nat,
               word_at payload k10 0xf800 /\ word_at payload k01 0x001f
               /\ (k10 < k01)%nat).
Proof.
  assert (Hslice : forall i r g b,
             (i + 3 <= 3 * 320 * 240)%nat ->
             two_pixels_byte i = r -> two_pixels_byte (i + 1) = g ->
             two_pixels_byte (i + 2) = b ->
             Py.slice two_pixels i (i + 3) = [r; g; b]).
  { intros i r g b Hi Hr Hg Hb.
    destruct (slice_triple two_pixels i) as (r' & g' & b' & Er & Eg & Eb & ->).
    { rewrite (proj1 two_pixels_valid). exact Hi. }
    rewrite two_pixels_lookup in Er, Eg, Eb by lia. congruence. }
  split; [apply (Hslice 3%nat); [lia|reflexivity..]|].
  split; [vm_compute; reflexivity|].
  split; [apply (Hslice 960%nat); [lia|reflexivity..]|].
  split; [vm_compute; reflexivity|].
  exists (payload_of two_pixels).
  split; [exact (proj1 (show_transfers two_pixels (G19.init quiet_device)
                          two_pixels_valid))|].
  assert (Hat : forall x y w lo hi,
             (x < 320)%nat -> (y < 240)%nat ->
             pixel_bytes two_pixels x y = [lo; hi] ->
             Z.land w 0xff = lo -> Z.shiftr w 8 = hi ->
             word_at (payload_of two_pixels) (2 * (x * 240 + y)) w).
  { intros x y w lo hi Hx Hy Hb Hlo Hhi. split.
    - replace (2 * (x * 240 + y))%nat with (2 * (x * 240 + y) + 0)%nat by lia.
      rewrite (payload_lookup _ x y 0 two_pixels_valid Hx Hy) by lia.
      rewrite Hb, Hlo. reflexivity.
    - rewrite (payload_lookup _ x y 1 two_pixels_valid Hx Hy) by lia.
      rewrite Hb, Hhi. reflexivity. }
  split; [apply (Hat 1%nat 0%nat _ 0x00 0xf8); try lia; try reflexivity;
          rewrite two_pixels_bytes by lia; reflexivity|].
  split; [apply (Hat 0%nat 1%nat _ 0x1f 0x00); try lia; try reflexivity;
          rewrite two_pixels_bytes by lia; reflexivity|].
  intros (k10 & k01 & [_ Hhi] & [Hlo _] & Hlt).
  apply two_pixels_payload in Hhi; [|discriminate].
  apply two_pixels_payload in Hlo; [|discriminate].
  destruct Hhi as [[_ E]|[E _]]; [discriminate|].
  destruct Hlo as [[E' _]|[_ E']]; [|discriminate].
  lia.
Qed.

(** C3, amended: for every valid pixel buffer the payload is ordered
    column by column: for each x in 0..319 and y in 0..239 the RGB triple
    at input index [y*320*3 + x*3] is encoded by [convert_color] and its
    word is stored at payload offset [2 * (x*240 + y)], low byte first
    and high byte second; consequently the word of pixel (x=0, y=1), at
    offset 2, comes before the word of pixel (x=1, y=0), at offset 480. *)
Theorem show_payload_column_major (data : list Z) (self : G19.t) :
  valid_pixels data ->
  exists payload,
    transfers (G19._device (G19.show data self).1)
    = transfers (G19._device self)
      ++ [BulkWrite 2 (FRAME_PREAMBLE ++ payload) 10]
    /\ (forall x y : nat,
           (x < 320)%nat -> (y < 240)%nat ->
           exists r g b c,
             data !! (y * 320 * 3 + x * 3)%nat = Some r
             /\ data !! (y * 320 * 3 + x * 3 + 1)%nat = Some g
             /\ data !! (y * 320 * 3 + x * 3 + 2)%nat = Some b
             /\ convert_color r g b = Ok c
             /\ word_at payload (2 * (x * 240 + y)) c)
    /\ (forall r g b c,
           data !! 960%nat = Some r -> data !! 961%nat = Some g ->
           data !! 962%nat = Some b -> convert_color r g b = Ok c ->
           word_at payload 2 c)
    /\ (forall r g b c,
           data !! 3%nat = Some r -> data !! 4%nat = Some g ->
           data !! 5%nat = Some b -> convert_color r g b = Ok c ->
           word_at payload 480 c).
Proof.
  intros Hvalid. exists (payload_of data).
  assert (Hpix : forall x y : nat,
             (x < 320)%nat -> (y < 240)%nat ->
             exists r g b c,
               data !! (y * 320 * 3 + x * 3)%nat = Some r
               /\ data !! (y * 320 * 3 + x * 3 + 1)%nat = Some g
               /\ data !! (y * 320 * 3 + x * 3 + 2)%nat = Some b
               /\ convert_color r g b = Ok c
               /\ word_at (payload_of data) (2 * (x * 240 + y)) c).
  { intros x y Hx Hy.
    destruct (pixel_word_valid data x y Hvalid Hx Hy)
      as (r & g & b & c & Hr & Hg & Hb & _ & Hc & Hbytes).
    exists r, g, b, c. repeat (split; [assumption|]). split.
    - replace (2 * (x * 240 + y))%nat with (2 * (x * 240 + y) + 0)%nat by lia.
      rewrite (payload_lookup data x y 0 Hvalid Hx Hy) by lia.
      now rewrite Hbytes.
    - rewrite (payload_lookup data x y 1 Hvalid Hx Hy) by lia.
      now rewrite Hbytes. }
  split; [exact (proj1 (show_transfers data self Hvalid))|].
  split; [exact Hpix|].
  split.
  - intros r g b c Hr Hg Hb Hc.
    destruct (Hpix 0%nat 1%nat ltac:(lia) ltac:(lia))
      as (r' & g' & b' & c' & Hr' & Hg' & Hb' & Hc' & Hat).
    simpl in Hr', Hg', Hb', Hat.
    rewrite Hr in Hr'. rewrite Hg in Hg'. rewrite Hb in Hb'.
    injection Hr' as <-. injection Hg' as <-. injection Hb' as <-.
    rewrite Hc in Hc'. injection Hc' as <-. exact Hat.
  - intros r g b c Hr Hg Hb Hc.
    destruct (Hpix 1%nat 0%nat ltac:(lia) ltac:(lia))
      as (r' & g' & b' & c' & Hr' & Hg' & Hb' & Hc' & Hat).
    simpl in Hr', Hg', Hb', Hat.
    rewrite Hr in Hr'. rewrite Hg in Hg'. rewrite Hb in Hb'.
    injection Hr' as <-. injection Hg' as <-. injection Hb' as <-.
    rewrite Hc in Hc'. injection Hc' as <-. exact Hat.
Qed.

Lemma show_payload_column_major_witness :
  valid_pixels two_pixels
  /\ exists payload,
      transfers (G19._device (G19.show two_pixels (G19.init quiet_device)).1)
      = [BulkWrite 2 (FRAME_PREAMBLE ++ payload) 10]
      /\ word_at payload 2 0x001f /\ word_at payload 480 0xf800.
Proof.
  split; [exact two_pixels_valid|].
  destruct (show_payload_column_major two_pixels (G19.init quiet_device)
              two_pixels_valid)
    as (payload & Hw & _ & H01 & H10).
  exists payload. split; [exact Hw|]. split.
  - apply (H01 0 0 255); try (apply two_pixels_lookup; lia).
    vm_compute; reflexivity.
  - apply (H10 255 0 0); try (apply two_pixels_lookup; lia).
    vm_compute; reflexivity.
Defined.

(** ** [Service.show]: the length check *)

Lemma no_assert_neq {A : Type} (m : result A) :
  no_assert m -> m <> Raise AssertionError.
Proof. intros H ->. exact H. Qed.

Lemma int_of_float_no_assert (f : float) : no_assert (Py.int_of_float f).
Proof.
  unfold Py.int_of_float. destruct (Prim2SF f); exact I.
Qed.

Lemma convert_color_no_assert (r g b : Z) : no_assert (convert_color r g b).
Proof.
  unfold convert_color, scale_channel, mbind, result_bind.
  pose proof (int_of_float_no_assert (Py.truediv (r * (2 ^ 5 - 1)) 255)).
  pose proof (int_of_float_no_assert (Py.truediv (g * (2 ^ 6 - 1)) 255)).
  pose proof (int_of_float_no_assert (Py.truediv (b * (2 ^ 5 - 1)) 255)).
  repeat (destruct (Py.int_of_float _); [|assumption]).
  exact I.
Qed.

Lemma show_pixel_no_assert (data : list Z) (x y : nat) (frame : list Z) :
  no_assert (G19.show_pixel data x y frame).2.
Proof.
  unfold G19.show_pixel. cbv zeta.
  unfold mbind, stateful_bind, lift.
  destruct (Py.unpack3 _) as [[[r g] b]|e] eqn:Hu.
  - pose proof (convert_color_no_assert r g b) as Hc.
    destruct (convert_color r g b); simpl; [exact I|exact Hc].
  - simpl. unfold Py.unpack3 in Hu.
    destruct (Py.slice _ _ _) as [|? [|? [|? [|? ?]]]];
      try discriminate Hu; injection Hu as <-; exact I.
Qed.

Lemma for_each_no_assert {A S : Type} (l : list A)
      (body : A -> stateful S unit) :
  (forall a s, no_assert (body a s).2) ->
  forall s, no_assert (Py.for_each l body s).2.
Proof.
  intros Hbody. induction l as [|a l IH]; intros s; simpl; [exact I|].
  unfold mbind, stateful_bind.
  pose proof (Hbody a s) as Ha.
  destruct (body a s) as [s' [[]|e]]; simpl in *; [apply IH|exact Ha].
Qed.

Lemma show_no_assert (data : list Z) (self : G19.t) :
  no_assert (G19.show data self).2.
Proof.
  unfold G19.show.
  pose proof (for_each_no_assert (Py.range 320)
                (fun x => Py.for_each (Py.range 240)
                            (fun y => G19.show_pixel data x y))) as Hloop.
  specialize (Hloop (fun x s => for_each_no_assert (Py.range 240) _
                         (show_pixel_no_assert data x) s) []).
  fold (G19.show_frame data) in Hloop.
  destruct (G19.show_frame data []) as [frame [[]|e]]; simpl in *.
  - unfold G19.with_lock. rewrite write_spec. simpl.
    unfold transfer_outcome. destruct (responds _ _ _); exact I.
  - exact Hloop.
Qed.

Lemma service_show_runs (frame : list Z) (self : G19.t) :
  length frame = (3 * 320 * 240)%nat ->
  Service.show frame self = G19.show frame self.
Proof.
  intros Hlen. unfold Service.show.
  destruct (decide (length frame = (3 * 320 * 240)%nat)); [reflexivity|tauto].
Qed.

Lemma service_show_rejects (frame : list Z) (self : G19.t) :
  length frame <> (3 * 320 * 240)%nat ->
  Service.show frame self = (self, Raise AssertionError).
Proof.
  intros Hlen. unfold Service.show.
  destruct (decide (length frame = (3 * 320 * 240)%nat)); [tauto|reflexivity].
Qed.

(** C8: [Service.show] raises its assertion error exactly when the
    buffer is not 230,400 items long, and then leaves the object alone
    and sends nothing; on a buffer of 230,400 bytes it writes the encoded
    frame to endpoint 2 and returns normally unless that transfer
    fails. *)
Theorem service_show_checks_length (frame : list Z) (self : G19.t) :
  ((Service.show frame self).2 = Raise AssertionError
   <-> Z.of_nat (length frame) <> 230400)
  /\ (Z.of_nat (length frame) <> 230400 -> (Service.show frame self).1 = self)
  /\ (Z.of_nat (length frame) = 230400 ->
      Forall (fun v => 0 <= v <= 255) frame ->
      exists encoded,
        transfers (G19._device (Service.show frame self).1)
        = transfers (G19._device self) ++ [BulkWrite 2 encoded 10]
        /\ (Service.show frame self).2
           = transfer_outcome (G19._device self) (BulkWrite 2 encoded 10)
        /\ ((Service.show frame self).2 = Ok tt
            \/ (Service.show frame self).2 = Raise USBError)).
Proof.
  split; [|split].
  - split.
    + intros Hraise Hlen.
      rewrite service_show_runs in Hraise by lia.
      exact (no_assert_neq _ (show_no_assert frame self) Hraise).
    + intros Hlen. rewrite service_show_rejects by lia. reflexivity.
  - intros Hlen. rewrite service_show_rejects by lia. reflexivity.
  - intros Hlen Hbytes.
    assert (Hvalid : valid_pixels frame) by (split; [lia|exact Hbytes]).
    rewrite service_show_runs by lia.
    exists (FRAME_PREAMBLE ++ payload_of frame).
    destruct (show_transfers frame self Hvalid) as [Hw Hout].
    split; [exact Hw|]. split; [exact Hout|].
    rewrite Hout. unfold transfer_outcome.
    destruct (responds _ _ _); auto.
Qed.

Lemma service_show_checks_length_witness :
  Z.of_nat (length black_frame) = 230400
  /\ Forall (fun v => 0 <= v <= 255) black_frame
  /\ (Service.show black_frame (G19.init quiet_device)).2 = Ok tt.
Proof.
  assert (Hlen : Z.of_nat (length black_frame) = 230400).
  { rewrite (proj1 black_frame_valid). lia. }
  pose proof (proj2 black_frame_valid) as Hbytes.
  refine (conj Hlen (conj Hbytes _)).
  destruct (proj2 (proj2 (service_show_checks_length black_frame
                            (G19.init quiet_device))) Hlen Hbytes)
    as (encoded & _ & Hout & _).
  exact Hout.
Defined.

(** ** KeyState *)

#[global] Instance ControlKey_flags : KeyFlags ControlKey.t.
Proof.
  split.
  - compute_done.
  - intros []; compute_done.
  - intros []; reflexivity.
  - intros [] []; intros Hne; try reflexivity; congruence.
Qed.

#[global] Instance GameKey_flags : KeyFlags GameKey.t.
Proof.
  split.
  - compute_done.
  - intros []; compute_done.
  - intros []; reflexivity.
  - intros [] []; intros Hne; try reflexivity; congruence.
Qed.

Lemma filter_ext_in {A : Type} (P Q : A -> Prop)
      `{!forall x, Decision (P x), !forall x, Decision (Q x)} (l : list A) :
  (forall x, x ∈ l -> P x <-> Q x) -> filter P l = filter Q l.
Proof.
  induction l as [|a l IH]; intros Hext; [reflexivity|].
  rewrite !filter_cons.
  rewrite IH by (intros; apply Hext; now apply list_elem_of_further).
  pose proof (Hext a (list_elem_of_here a l)) as Ha.
  destruct (decide (P a)), (decide (Q a)); tauto || reflexivity.
Qed.




Section KeyStateFacts.
Context {K : Type} `{KeyFlags K}.
Variable name : K -> Key.





Lemma scan_key_spec (keys : Z) (key : K) (states : gmap K bool)
      (fired : list notification) (old : bool) :
  states !! key = Some old ->
  scan_key name keys key (states, fired) =
  ((<[key := pressed keys key]> states,
    fired ++ (if decide (changed states keys key)
              then [transition name keys key] else [])),
   Ok tt).
Proof.
  intros Hold. unfold scan_key, transition.
  fold (pressed keys key).
  destruct (decide (changed states keys key)) as [Hd|Hd];
    unfold changed in Hd; rewrite Hold in Hd;
    destruct (pressed keys key), old;
    try congruence; try (exfalso; apply Hd; discriminate);
    unfold mbind, stateful_bind, stored, store, fire, pass, modify; simpl;
    rewrite Hold; simpl; rewrite ?app_nil_r; reflexivity.
Qed.

Lemma scan_list_spec (keys : Z) (l : list K) :
  NoDup l ->
  forall (states : gmap K bool) (fired : list notification),
    (forall key, key ∈ l -> is_Some (states !! key)) ->
    exists states',
      Py.for_each l (scan_key name keys) (states, fired) =
      ((states', fired ++ (transition name keys <$> filter (changed states keys) l)),
       Ok tt)
      /\ forall key,
          states' !! key =
          if decide (key ∈ l) then Some (pressed keys key) else states !! key.
Proof.
  induction 1 as [|a l Ha Hnd IH]; intros states fired Htotal.
  - exists states. simpl. rewrite app_nil_r. split; [reflexivity|].
    intros key. destruct (decide (key ∈ [])) as [Hin|_]; [inversion Hin|].
    reflexivity.
  - destruct (Htotal a (list_elem_of_here a l)) as [old Hold].
    destruct (IH (<[a := pressed keys a]> states)
                 (fired ++ (if decide (changed states keys a)
                            then [transition name keys a] else [])))
      as (states' & Hrun & Hlook).
    { intros key Hkey. rewrite lookup_insert_is_Some'. right.
      apply Htotal. now apply list_elem_of_further. }
    exists states'. split.
    + simpl. unfold mbind, stateful_bind.
      rewrite (scan_key_spec keys a states fired old Hold), Hrun.
      rewrite filter_cons.
      rewrite (filter_ext_in (changed (<[a := pressed keys a]> states) keys)
                             (changed states keys) l).
      * destruct (decide (changed states keys a));
          simpl; rewrite <- app_assoc; reflexivity.
      * intros key Hkey. unfold changed.
        rewrite lookup_insert_ne; [reflexivity|]. intros ->. contradiction.
    + intros key. rewrite Hlook.
      destruct (decide (key ∈ l)) as [Hin|Hout].
      * rewrite decide_True by (now apply list_elem_of_further). reflexivity.
      * destruct (decide (key = a)) as [->|Hne].
        -- rewrite lookup_insert_eq.
           rewrite decide_True by apply list_elem_of_here. reflexivity.
        -- rewrite lookup_insert_ne by congruence.
           rewrite decide_False; [reflexivity|].
           intros [->|Hin]%elem_of_cons; contradiction.
Qed.

(** One pass over the whole enumeration, on a dict that has every
    member. *)
Lemma scan_keys_spec (keys : Z) (states : gmap K bool)
      (fired : list notification) :
  (forall key, is_Some (states !! key)) ->
  exists states',
    scan_keys name keys (states, fired) =
    ((states', fired ++ transitions name states keys), Ok tt)
    /\ forall key, states' !! key = Some (pressed keys key).
Proof.
  intros Htotal. unfold scan_keys, transitions.
  destruct (scan_list_spec keys members members_NoDup states fired)
    as (states' & Hrun & Hlook); [intros; apply Htotal|].
  exists states'. split; [exact Hrun|].
  intros key. rewrite Hlook.
  now rewrite decide_True by apply members_all.
Qed.



End KeyStateFacts.

Lemma all_released_lookup {K : Type} `{KeyFlags K} (key : K) :
  all_released (K := K) !! key = Some false.
Proof.
  unfold all_released.
  pose proof (members_all key) as Hin.
  induction (members (K := K)) as [|a l IH]; [inversion Hin|].
  simpl. destruct (decide (a = key)) as [->|Hne].
  - apply lookup_insert_eq.
  - rewrite lookup_insert_ne by exact Hne.
    apply IH. apply elem_of_cons in Hin as [->|Hin]; [congruence|exact Hin].
Qed.




(** ** Ordering of the notifications *)

Lemma key_edges_app (key : Key) (l1 l2 : list notification) :
  key_edges key (l1 ++ l2) = key_edges key l1 ++ key_edges key l2.
Proof. unfold key_edges. now rewrite filter_app, fmap_app. Qed.

Lemma key_edges_same (key : Key) (e : edge) :
  key_edges key [(e, key)] = [e].
Proof.
  unfold key_edges. rewrite filter_cons_True by reflexivity. reflexivity.
Qed.

Lemma key_edges_other (key other : Key) (e : edge) :
  key <> other -> key_edges key [(e, other)] = [].
Proof.
  intros Hne. unfold key_edges.
  rewrite filter_cons_False by (simpl; congruence). reflexivity.
Qed.

Lemma alternating_snoc (l : list edge) (e : edge) :
  alternating l -> last l <> Some e -> alternating (l ++ [e]).
Proof.
  intros Halt Hlast i e1 e2 H1 H2.
  assert (Hi : (S i < length (l ++ [e]))%nat) by (eapply lookup_lt_Some, H2).
  rewrite length_app in Hi. simpl in Hi.
  destruct (decide (S i < length l)%nat) as [Hin|Hout].
  - rewrite lookup_app_l in H1 by lia. rewrite lookup_app_l in H2 by lia.
    exact (Halt i e1 e2 H1 H2).
  - assert (Hlen : length l = S i) by lia.
    rewrite lookup_app_l in H1 by lia.
    rewrite lookup_app_r in H2 by lia.
    replace (S i - length l)%nat with 0%nat in H2 by lia.
    injection H2 as <-.
    rewrite last_lookup, Hlen in Hlast. simpl in Hlast. congruence.
Qed.

Lemma down_first_snoc (l : list edge) (e : edge) :
  down_first l -> (l = [] -> e = KeyDown) -> down_first (l ++ [e]).
Proof.
  unfold down_first. destruct l as [|e' l]; simpl; [|tauto].
  intros _ He. rewrite He by reflexivity. discriminate.
Qed.

Lemma last_is_down_snoc (l : list edge) (e : edge) :
  last_is_down (l ++ [e]) = bool_decide (e = KeyDown).
Proof.
  unfold last_is_down. rewrite last_snoc. now destruct e.
Qed.

(** Appending the edge that the stored boolean calls for keeps the
    sequence of a key well ordered. *)
Lemma edges_snoc_ordered (l : list edge) (down : bool) :
  alternating l -> down_first l -> last_is_down l = negb down ->
  alternating (l ++ [if down then KeyDown else KeyUp])
  /\ down_first (l ++ [if down then KeyDown else KeyUp])
  /\ last_is_down (l ++ [if down then KeyDown else KeyUp]) = down.
Proof.
  intros Halt Hfirst Hlast. unfold last_is_down in Hlast.
  split; [|split].
  - apply alternating_snoc; [exact Halt|].
    destruct down, (last l) as [[]|]; simpl in *; congruence.
  - apply down_first_snoc; [exact Hfirst|].
    intros ->. destruct down; [reflexivity|discriminate].
  - rewrite last_is_down_snoc. now destruct down.
Qed.

Section KeyStateOrder.
Context {K : Type} `{KeyFlags K}.
Variable name : K -> Key.
Hypothesis name_inj : forall k1 k2 : K, name k1 = name k2 -> k1 = k2.

Lemma scan_key_in_step (keys : Z) (a : K) (fired0 : list notification)
      (st : gmap K bool * list notification) :
  in_step name st -> others_kept name fired0 st ->
  exists st',
    scan_key name keys a st = (st', Ok tt)
    /\ in_step name st' /\ others_kept name fired0 st'.
Proof.
  destruct st as [states fired]. intros [Hstored Hord] Hkept.
  simpl in Hstored, Hord.
  rewrite (scan_key_spec name keys a states fired _ (Hstored a)).
  eexists. split; [reflexivity|].
  destruct (decide (changed states keys a)) as [Hch|Hsame].
  - unfold changed in Hch. rewrite Hstored in Hch.
    destruct (Hord (name a)) as [Halt Hfirst].
    destruct (edges_snoc_ordered (key_edges (name a) fired) (pressed keys a)
                Halt Hfirst) as (Halt' & Hfirst' & Hlast').
    { destruct (last_is_down _), (pressed keys a); simpl; congruence. }
    split; [split|]; simpl.
    + intros k. destruct (decide (k = a)) as [->|Hne].
      * rewrite lookup_insert_eq, key_edges_app. unfold transition.
        rewrite key_edges_same. now rewrite Hlast'.
      * rewrite lookup_insert_ne by congruence.
        rewrite key_edges_app. unfold transition.
        rewrite key_edges_other by (intros E; apply Hne, name_inj, E).
        rewrite app_nil_r. apply Hstored.
    + intros key. rewrite key_edges_app. unfold transition.
      destruct (decide (key = name a)) as [->|Hne].
      * rewrite key_edges_same. split; assumption.
      * rewrite key_edges_other by exact Hne. rewrite app_nil_r. apply Hord.
    + intros key Hother. simpl. rewrite key_edges_app. unfold transition.
      rewrite key_edges_other by apply Hother.
      rewrite app_nil_r. exact (Hkept key Hother).
  - unfold changed in Hsame. apply dec_stable in Hsame.
    rewrite app_nil_r. split; [split|]; simpl.
    + intros k. destruct (decide (k = a)) as [->|Hne].
      * rewrite lookup_insert_eq. rewrite <- Hsame. apply Hstored.
      * rewrite lookup_insert_ne by congruence. apply Hstored.
    + exact Hord.
    + exact Hkept.
Qed.

Lemma scan_list_in_step (keys : Z) (l : list K)
      (fired0 : list notification) :
  forall st : gmap K bool * list notification,
    in_step name st -> others_kept name fired0 st ->
    exists st',
      Py.for_each l (scan_key name keys) st = (st', Ok tt)
      /\ in_step name st' /\ others_kept name fired0 st'.
Proof.
  induction l as [|a l IH]; intros st Hin Hkept.
  - exists st. auto.
  - destruct (scan_key_in_step keys a fired0 st Hin Hkept)
      as (st1 & Hrun1 & Hin1 & Hkept1).
    destruct (IH st1 Hin1 Hkept1) as (st' & Hrun & Hin' & Hkept').
    exists st'. simpl. unfold mbind, stateful_bind.
    rewrite Hrun1, Hrun. auto.
Qed.

Lemma scan_keys_in_step (keys : Z) (states : gmap K bool)
      (fired : list notification) :
  in_step name (states, fired) ->
  exists st',
    scan_keys name keys (states, fired) = (st', Ok tt)
    /\ in_step name st' /\ others_kept name fired st'.
Proof.
  intros Hin. apply scan_list_in_step; [exact Hin|].
  intros key _. reflexivity.
Qed.

End KeyStateOrder.

(** ** The session invariant *)

Lemma Control_inj (k1 k2 : ControlKey.t) : Control k1 = Control k2 -> k1 = k2.
Proof. congruence. Qed.

Lemma Game_inj (k1 k2 : GameKey.t) : Game k1 = Game k2 -> k1 = k2.
Proof. congruence. Qed.

Create HintDb preserves.

Lemma preserves_bind {A B : Type} (m : stateful G19.t A)
      (k : A -> stateful G19.t B) :
  preserves m -> (forall a, preserves (k a)) -> preserves (m ≫= k).
Proof.
  intros Hm Hk self Hself. unfold mbind, stateful_bind.
  specialize (Hm self Hself).
  destruct (m self) as [self' [a|e]]; simpl in *; [|exact Hm].
  exact (Hk a self' Hm).
Qed.

Lemma preserves_mret {A : Type} (a : A) : preserves (mret a).
Proof. intros self Hself. exact Hself. Qed.

Lemma preserves_pass : preserves pass.
Proof. intros self Hself. exact Hself. Qed.

Lemma preserves_get : preserves get.
Proof. intros self Hself. exact Hself. Qed.

Lemma preserves_raise {A : Type} (e : exn) : preserves (raise (A := A) e).
Proof. intros self Hself. exact Hself. Qed.

Lemma preserves_lift {A : Type} (r : result A) : preserves (lift r).
Proof. intros self Hself. exact Hself. Qed.

Lemma preserves_modify (f : G19.t -> G19.t) :
  (forall self, G19._display_keys (f self) = G19._display_keys self
                /\ G19._game_keys (f self) = G19._game_keys self
                /\ G19.fired (f self) = G19.fired self) ->
  preserves (modify f).
Proof.
  intros Hf self Hself. unfold modify, consistent in *. simpl.
  destruct (Hf self) as (-> & -> & ->). exact Hself.
Qed.

Lemma preserves_try (m : stateful G19.t unit) :
  preserves m -> preserves (try_except_USBError m).
Proof.
  intros Hm self Hself. unfold try_except_USBError.
  specialize (Hm self Hself).
  destruct (m self) as [self' [[]|[]]]; exact Hm.
Qed.

Lemma preserves_issue (op : usb_op) : preserves (G19.issue op).
Proof. intros self Hself. exact Hself. Qed.

Lemma preserves_for_each {A : Type} (l : list A)
      (body : A -> stateful G19.t unit) :
  (forall a, preserves (body a)) -> preserves (Py.for_each l body).
Proof.
  intros Hbody. induction l as [|a l IH]; simpl.
  - apply preserves_pass.
  - apply preserves_bind; [apply Hbody|intros _; exact IH].
Qed.

Lemma preserves_on_game_keys (keys : Z) :
  preserves (G19.on_game_keys (scan_keys Game keys)).
Proof.
  intros self [Hdisplay Hgame]. unfold G19.on_game_keys.
  destruct (scan_keys_in_step Game Game_inj keys _ _ Hgame)
    as ([states' fired'] & -> & Hin & Hkept).
  unfold others_kept in Hkept. simpl in Hkept.
  split; simpl; [|exact Hin].
  split; simpl.
  - intros k. rewrite (Hkept (Control k)) by discriminate.
    apply (proj1 Hdisplay).
  - apply (proj2 Hin).
Qed.

Lemma preserves_on_display_keys (keys : Z) :
  preserves (G19.on_display_keys (scan_keys Control keys)).
Proof.
  intros self [Hdisplay Hgame]. unfold G19.on_display_keys.
  destruct (scan_keys_in_step Control Control_inj keys _ _ Hdisplay)
    as ([states' fired'] & -> & Hin & Hkept).
  unfold others_kept in Hkept. simpl in Hkept.
  split; simpl; [exact Hin|].
  split; simpl.
  - intros k. rewrite (Hkept (Game k)) by discriminate.
    apply (proj1 Hgame).
  - apply (proj2 Hin).
Qed.

#[global] Hint Resolve preserves_mret preserves_pass preserves_get
  preserves_raise preserves_lift preserves_try preserves_issue
  preserves_on_game_keys preserves_on_display_keys : preserves.

(** Splits a method into its statements and closes each of them. *)
Ltac preserves_steps :=
  repeat match goal with
         | |- preserves (_ ≫= _) => apply preserves_bind; [|intros ?]
         | |- preserves (try_except_USBError _) => apply preserves_try
         | |- preserves (Py.for_each _ _) =>
             apply preserves_for_each; intros ?
         | |- preserves (modify _) =>
             apply preserves_modify; intros ?; repeat split
         | |- preserves (if ?c then _ else _) => destruct c
         | |- preserves (match ?c with _ => _ end) => destruct c
         | |- preserves _ => solve [auto with preserves]
         end.

Lemma preserves_poll_cycle : preserves G19.poll_cycle.
Proof.
  unfold G19.poll_cycle, G19.poll_game_keys, G19.poll_display_keys,
    G19.read_game_keys, G19.read_display_keys, G19.with_lock, G19.read.
  preserves_steps.
Qed.


Lemma preserves_color_setter (color : Z * Z * Z) :
  preserves (G19.color_setter color).
Proof.
  unfold G19.color_setter, G19.with_lock, G19.ctrl_transfer. preserves_steps.
Qed.

Lemma preserves_brightness_setter (b : Z) :
  preserves (G19.brightness_setter b).
Proof.
  unfold G19.brightness_setter, G19.with_lock, G19.ctrl_transfer.
  preserves_steps.
Qed.

Lemma preserves_light (keys : list Z) : preserves (G19.light keys).
Proof.
  unfold G19.light, G19.with_lock, G19.ctrl_transfer. preserves_steps.
Qed.

Lemma preserves_show (data : list Z) : preserves (G19.show data).
Proof.
  intros self Hself. unfold G19.show.
  destruct (G19.show_frame data []) as [frame [[]|e]]; [|exact Hself].
  unfold G19.with_lock. rewrite write_spec. exact Hself.
Qed.

Lemma preserves_start : preserves G19.start.
Proof. unfold G19.start. preserves_steps. Qed.

Lemma preserves_stop : preserves G19.stop.
Proof. unfold G19.stop. preserves_steps. Qed.

Lemma init_consistent (device : usb_device) : consistent (G19.init device).
Proof.
  split; (split; simpl;
          [intros k; apply all_released_lookup
          |intros key; split; [intros i e1 e2 Hi; discriminate Hi
                              |discriminate]]).
Qed.


(** The same holds when method calls are interleaved with the poll
    cycles in any order. *)
Lemma session_consistent (calls : list call) (self : G19.t) :
  consistent self -> consistent (session calls self).
Proof.
  unfold session. revert self.
  induction calls as [|c calls IH]; intros self Hself; [exact Hself|].
  simpl. apply IH.
  destruct c; simpl;
    [apply preserves_color_setter|apply preserves_brightness_setter
    |apply preserves_light|apply preserves_show|apply preserves_start
    |apply preserves_stop|apply preserves_poll_cycle]; exact Hself.
Qed.

Lemma session_alternates (device : usb_device) (calls : list call)
      (key : Key) :
  alternating (key_edges key (G19.fired (session calls (G19.init device)))).
Proof.
  destruct (session_consistent calls _ (init_consistent device))
    as [[_ Hord] _].
  exact (proj1 (Hord key)).
Qed.

Example ok_pressed_held_released :
  G19.fired (G19._run 1 (G19.init ok_pad)).1 = [(KeyDown, Control ControlKey.OK)]
  /\ G19.fired (G19._run 2 (G19.init ok_pad)).1
     = [(KeyDown, Control ControlKey.OK)]
  /\ G19.fired (G19._run 3 (G19.init ok_pad)).1
     = [(KeyDown, Control ControlKey.OK); (KeyUp, Control ControlKey.OK)].
Proof. repeat split; vm_compute; reflexivity. Qed.

(** ** Session lifecycle *)

Lemma ctrl_transfer_performs (ty rq v i : Z) (data : list Z) (tmo : Z)
      (self : G19.t) :
  performs (G19.ctrl_transfer ty rq v i data tmo) self
           (CtrlTransfer ty rq v i data tmo).
Proof. unfold performs. rewrite ctrl_transfer_spec. split; reflexivity. Qed.

Lemma color_setter_performs (r g b : Z) (self : G19.t) :
  performs (G19.color_setter (r, g, b)) self
           (CtrlTransfer (Z.lor TYPE_CLASS RECIP_INTERFACE) 0x09 0x307 0x01
                         [0x07; r; g; b] 10).
Proof.
  exact (ctrl_transfer_performs _ _ _ _ _ _ (G19.set_color (r, g, b) self)).
Qed.

Lemma brightness_setter_performs (b : Z) (self : G19.t) :
  0 <= b <= 100 ->
  performs (G19.brightness_setter b) self
           (CtrlTransfer (Z.lor TYPE_VENDOR RECIP_INTERFACE) 0x0a 0 0
              [b; 0xe2; 0x12; 0x00; 0x8c; 0x11; 0x00; 0x10; 0x00] 10).
Proof.
  intros Hb. unfold performs, G19.brightness_setter, G19.with_lock.
  destruct (decide (0 <= b <= 100)) as [_|Hn]; [|tauto].
  exact (ctrl_transfer_performs _ _ _ _ _ _ (G19.set_brightness b self)).
Qed.

Lemma light_performs (keys : list Z) (self : G19.t) :
  performs (G19.light keys) self
           (CtrlTransfer (Z.lor TYPE_CLASS RECIP_INTERFACE) 0x09 0x305 0x01
                         [5; foldr Z.lor 0 keys] 10).
Proof.
  unfold G19.light, G19.with_lock. rewrite fold_left_lor, Z.lor_0_l.
  apply ctrl_transfer_performs.
Qed.

Lemma show_performs (data : list Z) (self : G19.t) :
  valid_pixels data ->
  performs (G19.show data) self
           (BulkWrite 2 (FRAME_PREAMBLE ++ payload_of data) 10).
Proof. intros Hvalid. exact (show_transfers data self Hvalid). Qed.

(** C9, as stated, fails: after [start] and a completed [stop], setting
    the colour returns normally and its control transfer has been
    issued. *)
Lemma set_color_runs_after_stop :
  (G19.stop (G19.start (G19.init quiet_device)).1).2 = Ok tt
  /\ G19._stopped stopped_session = true
  /\ G19.color_setter (1, 2, 3) stopped_session
     = (G19.set_device
          {| responds := responds quiet_device;
             transfers := [CtrlTransfer 0x21 0x09 0x307 0x01 [7; 1; 2; 3] 10] |}
          (G19.set_color (1, 2, 3) stopped_session),
        Ok tt).
Proof. repeat split. Qed.

(** C9, amended: command calls issued after [stop] has completed are not
    rejected.  [stop] only sets the stop flag and joins the polling
    thread; afterwards the colour setter, the brightness setter (for a
    value in [0, 100]), [light] and [show] (for a valid buffer) each
    still issue their transfer and return what the device answers. *)
Theorem commands_still_run_after_stop (self : G19.t) :
  G19._thread self <> None ->
  let after := (G19.stop self).1 in
  (G19.stop self).2 = Ok tt
  /\ G19._stopped after = true
  /\ G19._device after = G19._device self
  /\ (forall r g b,
         performs (G19.color_setter (r, g, b)) after
           (CtrlTransfer (Z.lor TYPE_CLASS RECIP_INTERFACE) 0x09 0x307 0x01
                         [0x07; r; g; b] 10))
  /\ (forall b, 0 <= b <= 100 ->
         performs (G19.brightness_setter b) after
           (CtrlTransfer (Z.lor TYPE_VENDOR RECIP_INTERFACE) 0x0a 0 0
              [b; 0xe2; 0x12; 0x00; 0x8c; 0x11; 0x00; 0x10; 0x00] 10))
  /\ (forall keys,
         performs (G19.light keys) after
           (CtrlTransfer (Z.lor TYPE_CLASS RECIP_INTERFACE) 0x09 0x305 0x01
                         [5; foldr Z.lor 0 keys] 10))
  /\ (forall data, valid_pixels data ->
         performs (G19.show data) after
           (BulkWrite 2 (FRAME_PREAMBLE ++ payload_of data) 10)).
Proof.
  intros Hth after.
  assert (Hstop : (G19.stop self).2 = Ok tt /\ G19._stopped after = true
                  /\ G19._device after = G19._device self).
  { subst after.
    unfold G19.stop, mbind, stateful_bind, modify, get, pass. simpl.
    destruct (G19._thread self) as [[]|]; [|congruence]; simpl; auto. }
  destruct Hstop as (Hok & Hflag & Hdev).
  split; [exact Hok|]. split; [exact Hflag|]. split; [exact Hdev|].
  split; [intros; apply color_setter_performs|].
  split; [intros; now apply brightness_setter_performs|].
  split; [intros; apply light_performs|].
  intros; now apply show_performs.
Qed.

Lemma commands_still_run_after_stop_witness :
  G19._thread (G19.start (G19.init quiet_device)).1 <> None
  /\ (G19.light [LightKeys.int LightKeys.M1] stopped_session).2 = Ok tt
  /\ transfers (G19._device
                  (G19.light [LightKeys.int LightKeys.M1] stopped_session).1)
     = [CtrlTransfer 0x21 0x09 0x305 0x01 [5; 0x80] 10].
Proof.
  assert (Hth : G19._thread (G19.start (G19.init quiet_device)).1 <> None)
    by discriminate.
  split; [exact Hth|].
  destruct (commands_still_run_after_stop _ Hth)
    as (_ & _ & _ & _ & _ & Hlight & _).
  destruct (Hlight [LightKeys.int LightKeys.M1]) as [Hlog Hout].
  split; [exact Hout|exact Hlog].
Defined.

(** * Further properties of the driver *)

(** ** ColorCodec: reading the fields back *)

Lemma lor_shifted_low (a b n : Z) :
  0 <= n -> 0 <= b < 2 ^ n -> Z.lor (a * 2 ^ n) b = a * 2 ^ n + b.
Proof.
  intros Hn Hb.
  assert (Hdisjoint : Z.land (a * 2 ^ n) b = 0).
  { apply Z.bits_inj'. intros m Hm. rewrite Z.land_spec, Z.bits_0.
    destruct (Z.lt_ge_cases m n) as [Hlow|Hhigh].
    - now rewrite Z.mul_pow2_bits_low.
    - destruct (Z.eq_dec b 0) as [->|Hb0];
        [now rewrite Z.bits_0, andb_false_r|].
      rewrite (Z.bits_above_log2 b m), andb_false_r; [reflexivity|lia|].
      apply Z.lt_le_trans with n; [|exact Hhigh].
      apply Z.log2_lt_pow2; lia. }
  now rewrite Z.add_nocarry_lxor, Z.lxor_lor.
Qed.

Lemma packed_word_sum (r5 g6 b5 : Z) :
  0 <= g6 <= 63 -> 0 <= b5 <= 31 ->
  Z.lor (Z.lor (Z.shiftl r5 11) (Z.shiftl g6 5)) b5
  = r5 * 2048 + g6 * 32 + b5.
Proof.
  intros Hg Hb. rewrite !Z.shiftl_mul_pow2 by lia.
  rewrite (lor_shifted_low r5 (g6 * 2 ^ 5) 11) by lia.
  replace (r5 * 2 ^ 11 + g6 * 2 ^ 5) with ((r5 * 64 + g6) * 2 ^ 5) by lia.
  rewrite lor_shifted_low by lia. lia.
Qed.

Lemma packed_fields (r5 g6 b5 : Z) :
  0 <= r5 <= 31 -> 0 <= g6 <= 63 -> 0 <= b5 <= 31 ->
  let w := Z.lor (Z.lor (Z.shiftl r5 11) (Z.shiftl g6 5)) b5 in
  red_field w = r5 /\ green_field w = g6 /\ blue_field w = b5.
Proof.
  intros Hr Hg Hb. cbv zeta. rewrite (packed_word_sum r5 g6 b5 Hg Hb).
  unfold red_field, green_field, blue_field.
  change 0x3f with (Z.ones 6). change 0x1f with (Z.ones 5).
  rewrite !Z.land_ones, !Z.shiftr_div_pow2 by lia.
  change (2 ^ 11) with 2048. change (2 ^ 5) with 32. change (2 ^ 6) with 64.
  repeat split.
  - symmetry. apply Z.div_unique with (g6 * 32 + b5); lia.
  - replace ((r5 * 2048 + g6 * 32 + b5) / 32) with (r5 * 64 + g6)
      by (apply Z.div_unique with b5; lia).
    symmetry. apply Z.mod_unique with r5; lia.
  - symmetry. apply Z.mod_unique with (r5 * 64 + g6); lia.
Qed.

(** X1: the three fields of the word that [convert_color] returns do not
    overlap: shifting and masking the word gives back the scaled red,
    green and blue channels. *)
Theorem convert_color_fields (r g b : Z) :
  0 <= r <= 255 -> 0 <= g <= 255 -> 0 <= b <= 255 ->
  exists w,
    convert_color r g b = Ok w
    /\ red_field w = r * 31 / 255
    /\ green_field w = g * 63 / 255
    /\ blue_field w = b * 31 / 255.
Proof.
  intros Hr Hg Hb. eexists. split; [apply convert_color_floor; assumption|].
  apply packed_fields; apply scaled_range; lia.
Qed.

Lemma convert_color_fields_witness :
  0 <= 200 <= 255 /\ 0 <= 100 <= 255 /\ 0 <= 50 <= 255
  /\ exists w, convert_color 200 100 50 = Ok w
               /\ red_field w = 24 /\ green_field w = 24 /\ blue_field w = 6.
Proof.
  assert (Hr : 0 <= 200 <= 255) by lia.
  assert (Hg : 0 <= 100 <= 255) by lia.
  assert (Hb : 0 <= 50 <= 255) by lia.
  refine (conj Hr (conj Hg (conj Hb _))).
  exact (convert_color_fields 200 100 50 Hr Hg Hb).
Defined.

Lemma rescale_error (c m step : Z) :
  rescale_within m step = true -> 0 <= c <= 255 ->
  0 <= c - (c * m / 255) * 255 / m <= step.
Proof.
  intros Hall Hc. unfold rescale_within in Hall.
  rewrite forallb_forall in Hall.
  specialize (Hall c (in_bytes_0_255 c Hc)). cbv zeta in Hall.
  apply andb_true_iff in Hall as [H0 H1].
  apply Z.leb_le in H0, H1. lia.
Qed.

Lemma rescale_within_5 : rescale_within 31 9 = true.
Proof. vm_compute. reflexivity. Qed.

Lemma rescale_within_6 : rescale_within 63 4 = true.
Proof. vm_compute. reflexivity. Qed.

(** X2: scaling is lossy but bounded and monotone: rescaling a field of
    the returned word to 8 bits gives a value that is never above the
    original channel and at most 9 below it for red and blue, at most 4
    below it for green; a larger channel never gets a smaller field. *)
Theorem convert_color_quantisation (r g b : Z) :
  0 <= r <= 255 -> 0 <= g <= 255 -> 0 <= b <= 255 ->
  exists w,
    convert_color r g b = Ok w
    /\ 0 <= r - red_field w * 255 / 31 <= 9
    /\ 0 <= g - green_field w * 255 / 63 <= 4
    /\ 0 <= b - blue_field w * 255 / 31 <= 9
    /\ (forall r' w', r <= r' <= 255 -> convert_color r' g b = Ok w' ->
                      red_field w <= red_field w')
    /\ (forall g' w', g <= g' <= 255 -> convert_color r g' b = Ok w' ->
                      green_field w <= green_field w')
    /\ (forall b' w', b <= b' <= 255 -> convert_color r g b' = Ok w' ->
                      blue_field w <= blue_field w').
Proof.
  intros Hr Hg Hb.
  assert (convert_color_decodes : forall r g b,
             0 <= r <= 255 -> 0 <= g <= 255 -> 0 <= b <= 255 ->
             exists w,
               convert_color r g b = Ok w
               /\ red_field w = r * 31 / 255
               /\ green_field w = g * 63 / 255
               /\ blue_field w = b * 31 / 255).
  { clear. intros r g b Hr Hg Hb. eexists.
    split; [apply convert_color_floor; assumption|].
    apply packed_fields; apply scaled_range; lia. }
  destruct (convert_color_decodes r g b Hr Hg Hb) as (w & Hw & Er & Eg & Eb).
  exists w. split; [exact Hw|]. rewrite Er, Eg, Eb.
  split; [apply (rescale_error r 31 9 rescale_within_5 Hr)|].
  split; [apply (rescale_error g 63 4 rescale_within_6 Hg)|].
  split; [apply (rescale_error b 31 9 rescale_within_5 Hb)|].
  split; [|split].
  - intros r' w' Hr' Hw'.
    destruct (convert_color_decodes r' g b ltac:(lia) Hg Hb)
      as (w2 & Hw2 & E & _). rewrite Hw' in Hw2. injection Hw2 as <-.
    rewrite E. apply Z.div_le_mono; lia.
  - intros g' w' Hg' Hw'.
    destruct (convert_color_decodes r g' b Hr ltac:(lia) Hb)
      as (w2 & Hw2 & _ & E & _). rewrite Hw' in Hw2. injection Hw2 as <-.
    rewrite E. apply Z.div_le_mono; lia.
  - intros b' w' Hb' Hw'.
    destruct (convert_color_decodes r g b' Hr Hg ltac:(lia))
      as (w2 & Hw2 & _ & _ & E). rewrite Hw' in Hw2. injection Hw2 as <-.
    rewrite E. apply Z.div_le_mono; lia.
Qed.

Lemma convert_color_quantisation_witness :
  0 <= 200 <= 255 /\ 0 <= 100 <= 255 /\ 0 <= 50 <= 255
  /\ exists w, convert_color 200 100 50 = Ok w
               /\ 0 <= 200 - red_field w * 255 / 31 <= 9.
Proof.
  assert (Hr : 0 <= 200 <= 255) by lia.
  assert (Hg : 0 <= 100 <= 255) by lia.
  assert (Hb : 0 <= 50 <= 255) by lia.
  refine (conj Hr (conj Hg (conj Hb _))).
  destruct (convert_color_quantisation 200 100 50 Hr Hg Hb)
    as (w & Hw & Hred & _).
  exists w. split; [exact Hw|exact Hred].
Defined.

(** ** FrameCodec: the bytes of the frame *)

Lemma word_bytes (c : Z) :
  0 <= c < 2 ^ 16 ->
  0 <= Z.land c 0xff <= 255 /\ 0 <= Z.shiftr c 8 <= 255
  /\ Z.land c 0xff + 256 * Z.shiftr c 8 = c.
Proof.
  intros Hc. change (2 ^ 16) with 65536 in Hc. change 0xff with (Z.ones 8).
  rewrite Z.land_ones, Z.shiftr_div_pow2 by lia.
  change (2 ^ 8) with 256. change (Z.ones 8) with 255.
  pose proof (Z.div_mod c 256 ltac:(lia)) as E.
  pose proof (Z.mod_pos_bound c 256 ltac:(lia)) as B.
  assert (0 <= c / 256) by (apply Z.div_pos; lia).
  assert (c / 256 < 256) by (apply Z.div_lt_upper_bound; lia).
  lia.
Qed.

Lemma convert_color_range (r g b c : Z) :
  0 <= r <= 255 -> 0 <= g <= 255 -> 0 <= b <= 255 ->
  convert_color r g b = Ok c -> 0 <= c < 2 ^ 16.
Proof.
  intros Hr Hg Hb Hc. rewrite (convert_color_floor r g b Hr Hg Hb) in Hc.
  injection Hc as <-. apply packed_word_range; apply scaled_range; lia.
Qed.

Lemma FRAME_PREAMBLE_bytes : Forall (fun v => 0 <= v <= 255) FRAME_PREAMBLE.
Proof.
  unfold FRAME_PREAMBLE. repeat apply Forall_app_2.
  - rewrite Forall_forall. intros v Hv.
    repeat (apply elem_of_cons in Hv as [->|Hv]; [lia|]). inversion Hv.
  - rewrite Forall_forall. intros v Hv.
    apply list_elem_of_fmap in Hv as (i & -> & Hi).
    apply elem_of_seq in Hi. lia.
  - rewrite Forall_forall. intros v Hv.
    apply list_elem_of_fmap in Hv as (i & -> & Hi).
    apply elem_of_seq in Hi. lia.
Qed.

(** The word of a pixel and its two bytes in the payload, on a valid
    buffer. *)
Lemma payload_pixel (data : list Z) (x y : nat) :
  valid_pixels data -> (x < 320)%nat -> (y < 240)%nat ->
  exists r g b w,
    data !! (y * 320 * 3 + x * 3)%nat = Some r
    /\ data !! (y * 320 * 3 + x * 3 + 1)%nat = Some g
    /\ data !! (y * 320 * 3 + x * 3 + 2)%nat = Some b
    /\ convert_color r g b = Ok w
    /\ 0 <= w < 2 ^ 16
    /\ payload_of data !! (2 * (x * 240 + y))%nat = Some (Z.land w 0xff)
    /\ payload_of data !! (2 * (x * 240 + y) + 1)%nat = Some (Z.shiftr w 8).
Proof.
  intros Hvalid Hx Hy.
  destruct (pixel_word_valid data x y Hvalid Hx Hy)
    as (r & g & b & w & Hr & Hg & Hb & _ & Hw & Hbytes).
  exists r, g, b, w. repeat (split; [assumption|]).
  split.
  { eapply convert_color_range; [..|exact Hw];
      eapply valid_pixels_lookup; eassumption. }
  split.
  - replace (2 * (x * 240 + y))%nat with (2 * (x * 240 + y) + 0)%nat by lia.
    rewrite (payload_lookup data x y 0 Hvalid Hx Hy) by lia.
    now rewrite Hbytes.
  - rewrite (payload_lookup data x y 1 Hvalid Hx Hy) by lia.
    now rewrite Hbytes.
Qed.

Lemma payload_bytes (data : list Z) :
  valid_pixels data -> Forall (fun v => 0 <= v <= 255) (payload_of data).
Proof.
  intros Hvalid. rewrite Forall_lookup. intros k v Hk.
  assert (Hlt : (k < 2 * 320 * 240)%nat).
  { rewrite <- (payload_length data Hvalid). eapply lookup_lt_Some, Hk. }
  destruct (payload_offset_pixel k Hlt) as (x & y & j & Hx & Hy & Hj & ->).
  destruct (payload_pixel data x y Hvalid Hx Hy)
    as (r & g & b & w & _ & _ & _ & _ & Hw & Hlo & Hhi).
  destruct (word_bytes w Hw) as (Blo & Bhi & _).
  destruct j as [|[|j]]; [| |lia].
  - rewrite Nat.add_0_r, Hlo in Hk. injection Hk as <-. exact Blo.
  - rewrite Hhi in Hk. injection Hk as <-. exact Bhi.
Qed.

(** X3: every item of the frame that [show] writes for a valid buffer is
    a byte, and the word of pixel [(x, y)] is stored little-endian at
    frame offset [512 + 2 * (x * 240 + y)]: the byte there plus 256 times
    the next byte is the word that [convert_color] returns for the
    pixel. *)
Theorem show_frame_words (data : list Z) (self : G19.t) :
  valid_pixels data ->
  exists frame,
    transfers (G19._device (G19.show data self).1)
    = transfers (G19._device self) ++ [BulkWrite 2 frame 10]
    /\ Forall (fun v => 0 <= v <= 255) frame
    /\ forall x y : nat,
        (x < 320)%nat -> (y < 240)%nat ->
        exists r g b w lo hi,
          data !! (y * 320 * 3 + x * 3)%nat = Some r
          /\ data !! (y * 320 * 3 + x * 3 + 1)%nat = Some g
          /\ data !! (y * 320 * 3 + x * 3 + 2)%nat = Some b
          /\ convert_color r g b = Ok w
          /\ frame !! (512 + 2 * (x * 240 + y))%nat = Some lo
          /\ frame !! (512 + 2 * (x * 240 + y) + 1)%nat = Some hi
          /\ lo + 256 * hi = w.
Proof.
  intros Hvalid. exists (FRAME_PREAMBLE ++ payload_of data).
  split; [exact (proj1 (show_transfers data self Hvalid))|].
  split; [apply Forall_app_2; [apply FRAME_PREAMBLE_bytes
                              |apply payload_bytes, Hvalid]|].
  intros x y Hx Hy.
  destruct (payload_pixel data x y Hvalid Hx Hy)
    as (r & g & b & w & Hr & Hg & Hb & Hc & Hw & Hlo & Hhi).
  exists r, g, b, w, (Z.land w 0xff), (Z.shiftr w 8).
  repeat (split; [assumption|]).
  exact (proj2 (proj2 (word_bytes w Hw))).
Qed.

Lemma show_frame_words_witness :
  valid_pixels two_pixels
  /\ exists frame,
      transfers (G19._device (G19.show two_pixels (G19.init quiet_device)).1)
      = [BulkWrite 2 frame 10]
      /\ Forall (fun v => 0 <= v <= 255) frame.
Proof.
  split; [exact two_pixels_valid|].
  destruct (show_frame_words two_pixels (G19.init quiet_device)
              two_pixels_valid) as (frame & Hw & Hbytes & _).
  exists frame. split; [exact Hw|exact Hbytes].
Defined.

(** ** FrameCodec: buffers of the wrong length *)

Lemma unpack3_short {A : Type} (l : list A) :
  (length l < 3)%nat -> Py.unpack3 l = Raise ValueError.
Proof.
  destruct l as [|a [|b [|c l]]]; simpl; intros Hl; try reflexivity; lia.
Qed.

Lemma slice_short (data : list Z) (index : nat) :
  (length data < index + 3)%nat ->
  (length (Py.slice data index (index + 3)) < 3)%nat.
Proof.
  intros Hlen. unfold Py.slice.
  rewrite length_take, length_drop. lia.
Qed.

Lemma slice_bytes (data : list Z) (i j : nat) :
  Forall (fun v => 0 <= v <= 255) data ->
  Forall (fun v => 0 <= v <= 255) (Py.slice data i j).
Proof.
  intros Hall. unfold Py.slice. now apply Forall_take, Forall_drop.
Qed.

(** One pixel of a byte buffer of any length: its bytes are appended, or
    the unpacking fails and nothing is appended. *)
Lemma show_pixel_outcome (data : list Z) (x y : nat) (frame : list Z) :
  Forall (fun v => 0 <= v <= 255) data ->
  ((y * 320 * 3 + x * 3 + 3 <= length data)%nat
   /\ exists bytes, G19.show_pixel data x y frame = (frame ++ bytes, Ok tt))
  \/ ((length data < y * 320 * 3 + x * 3 + 3)%nat
      /\ G19.show_pixel data x y frame = (frame, Raise ValueError)).
Proof.
  intros Hbytes.
  destruct (le_lt_dec (y * 320 * 3 + x * 3 + 3) (length data)) as [Hin|Hout].
  - left. split; [exact Hin|].
    destruct (slice_triple data _ Hin) as (r & g & b & Hr & Hg & Hb & Hs).
    rewrite Forall_lookup in Hbytes.
    pose proof (convert_color_floor r g b (Hbytes _ _ Hr) (Hbytes _ _ Hg)
                  (Hbytes _ _ Hb)) as Hc.
    eexists. unfold G19.show_pixel. cbv zeta. rewrite Hs. simpl.
    unfold mbind, stateful_bind, lift. rewrite Hc. simpl.
    unfold Py.append, modify. rewrite <- app_assoc. reflexivity.
  - right. split; [exact Hout|].
    unfold G19.show_pixel. cbv zeta.
    rewrite (unpack3_short _ (slice_short data _ Hout)). reflexivity.
Qed.

Section LoopOutcomes.
Context {A S : Type}.
Variable body : A -> stateful S unit.
Variable e : exn.

(** A loop whose turns can only return or raise [e] does the same. *)
Lemma for_each_ok_or (l : list A) :
  (forall a s, a ∈ l ->
     exists s', body a s = (s', Ok tt) \/ body a s = (s', Raise e)) ->
  forall s, exists s',
    Py.for_each l body s = (s', Ok tt) \/ Py.for_each l body s = (s', Raise e).
Proof.
  induction l as [|a l IH]; intros Hall s.
  - exists s. left. reflexivity.
  - simpl. unfold mbind, stateful_bind.
    destruct (Hall a s (list_elem_of_here a l)) as (s1 & [-> | ->]).
    + apply IH. intros; apply Hall. now apply list_elem_of_further.
    + exists s1. right. reflexivity.
Qed.

(** If moreover one turn always raises, the loop raises. *)
Lemma for_each_raises (l : list A) (bad : A) :
  (forall a s, a ∈ l ->
     exists s', body a s = (s', Ok tt) \/ body a s = (s', Raise e)) ->
  bad ∈ l -> (forall s, exists s', body bad s = (s', Raise e)) ->
  forall s, exists s', Py.for_each l body s = (s', Raise e).
Proof.
  induction l as [|a l IH]; intros Hall Hbad Hraise s; [inversion Hbad|].
  simpl. unfold mbind, stateful_bind.
  apply elem_of_cons in Hbad as [->|Hin].
  - destruct (Hraise s) as (s1 & ->). exists s1. reflexivity.
  - destruct (Hall a s (list_elem_of_here a l)) as (s1 & [-> | ->]).
    + apply IH; [|exact Hin|exact Hraise].
      intros; apply Hall. now apply list_elem_of_further.
    + exists s1. reflexivity.
Qed.

(** Two loops whose bodies agree on the items agree. *)
Lemma for_each_ext (body' : A -> stateful S unit) (l : list A) :
  (forall a s, a ∈ l -> body a s = body' a s) ->
  forall s, Py.for_each l body s = Py.for_each l body' s.
Proof.
  induction l as [|a l IH]; intros Hext s; [reflexivity|].
  simpl. unfold mbind, stateful_bind.
  rewrite (Hext a s (list_elem_of_here a l)).
  destruct (body' a s) as [s1 [[]|e']]; [|reflexivity].
  apply IH. intros; apply Hext. now apply list_elem_of_further.
Qed.

End LoopOutcomes.

Lemma show_column_outcome (data : list Z) (x : nat) (frame : list Z) :
  Forall (fun v => 0 <= v <= 255) data ->
  exists frame',
    Py.for_each (Py.range 240) (fun y => G19.show_pixel data x y) frame
    = (frame', Ok tt)
    \/ Py.for_each (Py.range 240) (fun y => G19.show_pixel data x y) frame
       = (frame', Raise ValueError).
Proof.
  intros Hbytes. apply for_each_ok_or. intros y s _.
  destruct (show_pixel_outcome data x y s Hbytes)
    as [[_ [bytes ->]]|[_ ->]]; eauto.
Qed.

Lemma show_frame_short (data : list Z) :
  Forall (fun v => 0 <= v <= 255) data ->
  (length data < 3 * 320 * 240)%nat ->
  exists frame, G19.show_frame data [] = (frame, Raise ValueError).
Proof.
  intros Hbytes Hshort. unfold G19.show_frame.
  apply (for_each_raises _ ValueError (Py.range 320) 319%nat).
  - intros x s _. apply show_column_outcome, Hbytes.
  - apply elem_of_seq. lia.
  - intros s. apply (for_each_raises _ ValueError (Py.range 240) 239%nat).
    + intros y s' _.
      destruct (show_pixel_outcome data 319 y s' Hbytes)
        as [[_ [bytes ->]]|[_ ->]]; eauto.
    + apply elem_of_seq. lia.
    + intros s'.
      destruct (show_pixel_outcome data 319 239 s' Hbytes)
        as [[Hin _]|[_ ->]]; [lia|eauto].
Qed.

(** X4: [show] on a byte buffer shorter than 230,400 bytes raises
    [ValueError] from the unpacking of a pixel; nothing is written to
    the device and the object is left as it was. *)
Theorem show_short_buffer (data : list Z) (self : G19.t) :
  Forall (fun v => 0 <= v <= 255) data ->
  Z.of_nat (length data) < 230400 ->
  G19.show data self = (self, Raise ValueError).
Proof.
  intros Hbytes Hshort.
  destruct (show_frame_short data Hbytes ltac:(lia)) as (frame & Hframe).
  unfold G19.show. now rewrite Hframe.
Qed.

Lemma show_short_buffer_witness :
  Forall (fun v => 0 <= v <= 255) [255; 255; 255; 0]
  /\ Z.of_nat (length [255; 255; 255; 0]) < 230400
  /\ G19.show [255; 255; 255; 0] (G19.init quiet_device)
     = (G19.init quiet_device, Raise ValueError).
Proof.
  assert (Hbytes : Forall (fun v => 0 <= v <= 255) [255; 255; 255; 0])
    by (repeat constructor; lia).
  assert (Hshort : Z.of_nat (length [255; 255; 255; 0]) < 230400)
    by (simpl; lia).
  refine (conj Hbytes (conj Hshort _)).
  exact (show_short_buffer _ (G19.init quiet_device) Hbytes Hshort).
Defined.

Lemma slice_app_within (data extra : list Z) (index : nat) :
  (index + 3 <= length data)%nat ->
  Py.slice (data ++ extra) index (index + 3) = Py.slice data index (index + 3).
Proof.
  intros Hin. unfold Py.slice.
  replace (index + 3 - index)%nat with 3%nat by lia.
  rewrite drop_app_le by lia.
  apply take_app_le. rewrite length_drop. lia.
Qed.

(** X5: [show] reads only the first 230,400 items: on a buffer that
    has them, whatever follows, it does exactly what it does on the
    buffer without what follows. *)
Theorem show_ignores_excess (data extra : list Z) (self : G19.t) :
  230400 <= Z.of_nat (length data) ->
  G19.show (data ++ extra) self = G19.show data self.
Proof.
  intros Hlen. unfold G19.show.
  assert (Hframe : G19.show_frame (data ++ extra) [] = G19.show_frame data []).
  { unfold G19.show_frame. apply for_each_ext. intros x s Hx.
    apply elem_of_seq in Hx.
    apply for_each_ext. intros y s' Hy. apply elem_of_seq in Hy.
    unfold G19.show_pixel. cbv zeta.
    rewrite slice_app_within by lia. reflexivity. }
  now rewrite Hframe.
Qed.

Lemma show_ignores_excess_witness :
  230400 <= Z.of_nat (length black_frame)
  /\ G19.show (black_frame ++ [1; 2; 3]) (G19.init quiet_device)
     = G19.show black_frame (G19.init quiet_device).
Proof.
  assert (Hlen : 230400 <= Z.of_nat (length black_frame))
    by (rewrite (proj1 black_frame_valid); lia).
  split; [exact Hlen|].
  exact (show_ignores_excess black_frame [1; 2; 3] (G19.init quiet_device)
           Hlen).
Defined.

(** ** The polling loop: what a read does to the key states *)

Lemma issue_spec (op : usb_op) (self : G19.t) :
  G19.issue op self =
  (after_transfer op self,
   match answer self op with
   | Some bytes => Ok bytes
   | None => Raise USBError
   end).
Proof. reflexivity. Qed.

Lemma on_game_keys_scan (keys : Z) (self : G19.t) :
  (forall k : GameKey.t, is_Some (G19._game_keys self !! k)) ->
  exists states,
    G19.on_game_keys (scan_keys Game keys) self
    = (G19.set_game_keys
         (states,
          G19.fired self ++ transitions Game (G19._game_keys self) keys)
         self, Ok tt)
    /\ forall k, states !! k = Some (pressed keys k).
Proof.
  intros Htotal.
  destruct (scan_keys_spec Game keys _ (G19.fired self) Htotal)
    as (states & Hrun & Hlook).
  exists states. split; [|exact Hlook].
  unfold G19.on_game_keys. now rewrite Hrun.
Qed.

Lemma on_display_keys_scan (keys : Z) (self : G19.t) :
  (forall k : ControlKey.t, is_Some (G19._display_keys self !! k)) ->
  exists states,
    G19.on_display_keys (scan_keys Control keys) self
    = (G19.set_display_keys
         (states,
          G19.fired self ++ transitions Control (G19._display_keys self) keys)
         self, Ok tt)
    /\ forall k, states !! k = Some (pressed keys k).
Proof.
  intros Htotal.
  destruct (scan_keys_spec Control keys _ (G19.fired self) Htotal)
    as (states & Hrun & Hlook).
  exists states. split; [|exact Hlook].
  unfold G19.on_display_keys. now rewrite Hrun.
Qed.

(** The four ways a macro-key read can go. *)
Lemma poll_game_keys_timeout (self : G19.t) :
  answer self game_read = None ->
  G19.poll_game_keys self = (after_transfer game_read self, Ok tt).
Proof.
  intros Hans.
  unfold G19.poll_game_keys, try_except_USBError, G19.read_game_keys,
    G19.with_lock, G19.read.
  unfold mbind at 1, stateful_bind. fold game_read.
  now rewrite issue_spec, Hans.
Qed.

Lemma poll_game_keys_empty (self : G19.t) :
  answer self game_read = Some [] ->
  G19.poll_game_keys self = (after_transfer game_read self, Raise IndexError).
Proof.
  intros Hans.
  unfold G19.poll_game_keys, try_except_USBError, G19.read_game_keys,
    G19.with_lock, G19.read.
  unfold mbind at 1, stateful_bind. fold game_read.
  now rewrite issue_spec, Hans.
Qed.

Lemma poll_game_keys_other (self : G19.t) (first : Z) (rest : list Z) :
  answer self game_read = Some (first :: rest) ->
  first <> 2 \/ length rest <> 3%nat ->
  G19.poll_game_keys self = (after_transfer game_read self, Ok tt).
Proof.
  intros Hans Hbad.
  unfold G19.poll_game_keys, try_except_USBError, G19.read_game_keys,
    G19.with_lock, G19.read.
  unfold mbind at 1, stateful_bind. fold game_read.
  rewrite issue_spec, Hans.
  unfold mbind, stateful_bind, lift. simpl.
  destruct Hbad as [Hfirst|Hlen].
  - rewrite (bool_decide_eq_false_2 (first = 2)) by exact Hfirst. reflexivity.
  - rewrite (bool_decide_eq_false_2 (S (length rest) = 4%nat)) by lia.
    rewrite andb_false_r. reflexivity.
Qed.

Lemma poll_game_keys_packet (self : G19.t) (b1 b2 b3 : Z) :
  (forall k : GameKey.t, is_Some (G19._game_keys self !! k)) ->
  answer self game_read = Some [2; b1; b2; b3] ->
  G19.poll_game_keys self
  = G19.on_game_keys (scan_keys Game (macro_mask b1 b2 b3))
                     (after_transfer game_read self).
Proof.
  intros Htotal Hans.
  destruct (on_game_keys_scan (macro_mask b1 b2 b3)
              (after_transfer game_read self) Htotal) as (states & Hscan & _).
  unfold G19.poll_game_keys, try_except_USBError, G19.read_game_keys,
    G19.with_lock, G19.read.
  unfold mbind at 1, stateful_bind. fold game_read.
  rewrite issue_spec, Hans.
  unfold mbind, stateful_bind, lift. simpl.
  fold (macro_mask b1 b2 b3). now rewrite Hscan.
Qed.





(** X7: a macro-key read that times out or fails, or that returns a
    packet that does not start with 2 or is not 4 items long, changes
    nothing but the list of transfers: no key state, no notification,
    and the poll goes on. *)
Theorem poll_game_keys_ignores (self : G19.t) :
  answer self game_read = None
  \/ (exists first rest,
         answer self game_read = Some (first :: rest)
         /\ (first <> 2 \/ length rest <> 3%nat)) ->
  G19.poll_game_keys self = (after_transfer game_read self, Ok tt).
Proof.
  intros [Hnone|(first & rest & Hans & Hbad)].
  - now apply poll_game_keys_timeout.
  - now apply (poll_game_keys_other self first rest).
Qed.

Lemma poll_game_keys_ignores_witness :
  let dev := {| responds := fun _ _ => Some [1; 0xff; 0xff; 0xff];
                transfers := [] |} in
  G19.fired (G19.poll_game_keys (G19.init dev)).1 = []
  /\ G19._game_keys (G19.poll_game_keys (G19.init dev)).1 = all_released.
Proof.
  intros dev.
  assert (Hbad : answer (G19.init dev) game_read = None
                 \/ (exists first rest,
                        answer (G19.init dev) game_read = Some (first :: rest)
                        /\ (first <> 2 \/ length rest <> 3%nat))).
  { right. exists 1, [0xff; 0xff; 0xff]. split; [reflexivity|]. left. lia. }
  rewrite (poll_game_keys_ignores (G19.init dev) Hbad).
  split; reflexivity.
Defined.

Lemma poll_display_keys_timeout (self : G19.t) :
  answer self pad_read = None ->
  G19.poll_display_keys self = (after_transfer pad_read self, Ok tt).
Proof.
  intros Hans.
  unfold G19.poll_display_keys, try_except_USBError, G19.read_display_keys,
    G19.with_lock, G19.read.
  unfold mbind at 1, stateful_bind. fold pad_read.
  now rewrite issue_spec, Hans.
Qed.

Lemma poll_display_keys_empty (self : G19.t) :
  answer self pad_read = Some [] ->
  G19.poll_display_keys self
  = (after_transfer pad_read self, Raise IndexError).
Proof.
  intros Hans.
  unfold G19.poll_display_keys, try_except_USBError, G19.read_display_keys,
    G19.with_lock, G19.read.
  unfold mbind at 1, stateful_bind. fold pad_read.
  now rewrite issue_spec, Hans.
Qed.

Lemma poll_display_keys_byte (self : G19.t) (b : Z) (rest : list Z) :
  (forall k : ControlKey.t, is_Some (G19._display_keys self !! k)) ->
  answer self pad_read = Some (b :: rest) ->
  G19.poll_display_keys self
  = G19.on_display_keys (scan_keys Control b) (after_transfer pad_read self).
Proof.
  intros Htotal Hans.
  destruct (on_display_keys_scan b (after_transfer pad_read self) Htotal)
    as (states & Hscan & _).
  unfold G19.poll_display_keys, try_except_USBError, G19.read_display_keys,
    G19.with_lock, G19.read.
  unfold mbind at 1, stateful_bind. fold pad_read.
  rewrite issue_spec, Hans.
  unfold mbind, stateful_bind, lift. simpl. now rewrite Hscan.
Qed.



(** ** The polling loop: one cycle *)

Lemma poll_game_keys_outcome (self : G19.t) :
  (forall k : GameKey.t, is_Some (G19._game_keys self !! k)) ->
  let out := G19.poll_game_keys self in
  G19._device out.1 = G19._device (after_transfer game_read self)
  /\ G19._display_keys out.1 = G19._display_keys self
  /\ (forall k : GameKey.t, is_Some (G19._game_keys out.1 !! k))
  /\ ((answer self game_read = Some [] /\ out.2 = Raise IndexError)
      \/ (answer self game_read <> Some [] /\ out.2 = Ok tt)).
Proof.
  intros Htotal out. subst out.
  destruct (answer self game_read) as [[|first rest]|] eqn:Hans.
  - rewrite (poll_game_keys_empty self Hans). simpl.
    repeat split; [exact Htotal|]. left. split; reflexivity.
  - destruct (decide (first = 2)) as [->|Hfirst];
      [destruct (decide (length rest = 3%nat)) as [Hlen|Hlen]|].
    + destruct rest as [|b1 [|b2 [|b3 [|? ?]]]]; try discriminate Hlen.
      rewrite (poll_game_keys_packet self b1 b2 b3 Htotal Hans).
      destruct (on_game_keys_scan (macro_mask b1 b2 b3)
                  (after_transfer game_read self) Htotal)
        as (states & -> & Hlook).
      simpl. repeat split; [intros k; rewrite Hlook; eauto|].
      right. split; [discriminate|reflexivity].
    + rewrite (poll_game_keys_other self 2 rest Hans) by auto.
      simpl. repeat split; [exact Htotal|].
      right. split; [discriminate|reflexivity].
    + rewrite (poll_game_keys_other self first rest Hans) by auto.
      simpl. repeat split; [exact Htotal|].
      right. split; [discriminate|reflexivity].
  - rewrite (poll_game_keys_timeout self Hans). simpl.
    repeat split; [exact Htotal|].
    right. split; [discriminate|reflexivity].
Qed.

Lemma poll_display_keys_outcome (self : G19.t) :
  (forall k : ControlKey.t, is_Some (G19._display_keys self !! k)) ->
  let out := G19.poll_display_keys self in
  G19._device out.1 = G19._device (after_transfer pad_read self)
  /\ G19._game_keys out.1 = G19._game_keys self
  /\ (forall k : ControlKey.t, is_Some (G19._display_keys out.1 !! k))
  /\ ((answer self pad_read = Some [] /\ out.2 = Raise IndexError)
      \/ (answer self pad_read <> Some [] /\ out.2 = Ok tt)).
Proof.
  intros Htotal out. subst out.
  destruct (answer self pad_read) as [[|b rest]|] eqn:Hans.
  - rewrite (poll_display_keys_empty self Hans). simpl.
    repeat split; [exact Htotal|]. left. split; reflexivity.
  - rewrite (poll_display_keys_byte self b rest Htotal Hans).
    destruct (on_display_keys_scan b (after_transfer pad_read self) Htotal)
      as (states & -> & Hlook).
    simpl. repeat split; [intros k; rewrite Hlook; eauto|].
    right. split; [discriminate|reflexivity].
  - rewrite (poll_display_keys_timeout self Hans). simpl.
    repeat split; [exact Htotal|].
    right. split; [discriminate|reflexivity].
Qed.



(** X10: an empty array from the macro-key endpoint ends the polling for
    good: [_run] raises [IndexError] in that cycle without clearing
    [_running], so that on an object whose polling was started, [start]
    afterwards returns without making a new thread.  When [_run]
    returns normally, [_running] is cleared. *)
Theorem empty_read_ends_polling (self : G19.t) (cycles : nat) :
  (answer self game_read = Some [] ->
   G19._run (S cycles) self = (after_transfer game_read self, Raise IndexError)
   /\ (G19._running self = true ->
       G19.start (after_transfer game_read self)
       = (after_transfer game_read self, Ok tt)))
  /\ ((G19._run cycles self).2 = Ok tt ->
      G19._running (G19._run cycles self).1 = false).
Proof.
  split.
  - intros Hans. split.
    + unfold G19._run, Py.range. simpl.
      unfold mbind, stateful_bind, G19.poll_cycle.
      unfold mbind, stateful_bind.
      now rewrite (poll_game_keys_empty self Hans).
    + intros Hrunning. unfold G19.start, mbind, stateful_bind, get. simpl.
      now rewrite Hrunning.
  - unfold G19._run, mbind, stateful_bind.
    destruct (Py.for_each _ _ self) as [s1 [[]|e]]; simpl;
      [reflexivity|discriminate].
Qed.

(** A device whose macro-key endpoint returns an empty array. *)
Lemma empty_read_ends_polling_witness :
  let dev := {| responds := fun _ _ => Some []; transfers := [] |} in
  let started := (G19.start (G19.init dev)).1 in
  answer started game_read = Some []
  /\ G19._running started = true
  /\ (G19._run 3 started).2 = Raise IndexError
  /\ G19._running (G19._run 3 started).1 = true
  /\ G19.start (G19._run 3 started).1 = ((G19._run 3 started).1, Ok tt).
Proof.
  intros dev started.
  assert (Hans : answer started game_read = Some []) by reflexivity.
  assert (Hrunning : G19._running started = true) by reflexivity.
  destruct (proj1 (empty_read_ends_polling started 2) Hans) as [Hrun Hstart].
  refine (conj Hans (conj Hrunning _)).
  rewrite Hrun. simpl.
  split; [reflexivity|]. split; [exact Hrunning|exact (Hstart Hrunning)].
Defined.

(** ** What each method leaves alone *)

Section Keeps.
Context {B : Type}.
Variable f : G19.t -> B.

Lemma keeps_bind {A C : Type} (m : stateful G19.t A)
      (k : A -> stateful G19.t C) :
  keeps f m -> (forall a, keeps f (k a)) -> keeps f (m ≫= k).
Proof.
  intros Hm Hk self. unfold mbind, stateful_bind.
  specialize (Hm self).
  destruct (m self) as [self' [a|e]]; simpl in *; [|exact Hm].
  now rewrite Hk.
Qed.

Lemma keeps_mret {A : Type} (a : A) : keeps f (mret a).
Proof. intros self. reflexivity. Qed.

Lemma keeps_pass : keeps f pass.
Proof. intros self. reflexivity. Qed.

Lemma keeps_get : keeps f get.
Proof. intros self. reflexivity. Qed.

Lemma keeps_raise {A : Type} (e : exn) : keeps f (raise (A := A) e).
Proof. intros self. reflexivity. Qed.

Lemma keeps_lift {A : Type} (r : result A) : keeps f (lift r).
Proof. intros self. reflexivity. Qed.

Lemma keeps_modify (g : G19.t -> G19.t) :
  (forall self, f (g self) = f self) -> keeps f (modify g).
Proof. intros Hg self. apply Hg. Qed.

Lemma keeps_try (m : stateful G19.t unit) :
  keeps f m -> keeps f (try_except_USBError m).
Proof.
  intros Hm self. unfold try_except_USBError. specialize (Hm self).
  destruct (m self) as [self' [[]|[]]]; exact Hm.
Qed.

Lemma keeps_for_each {A : Type} (l : list A)
      (body : A -> stateful G19.t unit) :
  (forall a, keeps f (body a)) -> keeps f (Py.for_each l body).
Proof.
  intros Hbody. induction l as [|a l IH]; simpl.
  - apply keeps_pass.
  - apply keeps_bind; [apply Hbody|intros _; exact IH].
Qed.

Lemma keeps_issue (op : usb_op) :
  (forall d self, f (G19.set_device d self) = f self) ->
  keeps f (G19.issue op).
Proof. intros Hd self. apply Hd. Qed.

Lemma keeps_on_game_keys
      (scan : stateful (gmap GameKey.t bool * list notification) unit) :
  (forall st self, f (G19.set_game_keys st self) = f self) ->
  keeps f (G19.on_game_keys scan).
Proof.
  intros Hst self. unfold G19.on_game_keys.
  destruct (scan _) as [st out]. apply Hst.
Qed.

Lemma keeps_on_display_keys
      (scan : stateful (gmap ControlKey.t bool * list notification) unit) :
  (forall st self, f (G19.set_display_keys st self) = f self) ->
  keeps f (G19.on_display_keys scan).
Proof.
  intros Hst self. unfold G19.on_display_keys.
  destruct (scan _) as [st out]. apply Hst.
Qed.

Lemma keeps_show (data : list Z) :
  (forall d self, f (G19.set_device d self) = f self) ->
  keeps f (G19.show data).
Proof.
  intros Hd self. unfold G19.show.
  destruct (G19.show_frame data []) as [frame [[]|e]]; [|reflexivity].
  unfold G19.with_lock. rewrite write_spec. apply Hd.
Qed.

End Keeps.

(** Splits a method into its statements and shows that each of them
    leaves the view alone. *)
Ltac keeps_steps :=
  repeat match goal with
         | |- keeps _ (_ ≫= _) => apply keeps_bind; [|intros ?]
         | |- keeps _ (try_except_USBError _) => apply keeps_try
         | |- keeps _ (Py.for_each _ _) => apply keeps_for_each; intros ?
         | |- keeps _ (modify _) => apply keeps_modify; intros ?; reflexivity
         | |- keeps _ (G19.issue _) => apply keeps_issue; intros ? ?; reflexivity
         | |- keeps _ (G19.on_game_keys _) =>
             apply keeps_on_game_keys; intros ? ?; reflexivity
         | |- keeps _ (G19.on_display_keys _) =>
             apply keeps_on_display_keys; intros ? ?; reflexivity
         | |- keeps _ (G19.show _) =>
             apply keeps_show; intros ? ?; reflexivity
         | |- keeps _ (if ?c then _ else _) => destruct c
         | |- keeps _ (match ?c with _ => _ end) => destruct c
         | |- keeps _ (mret _) => apply keeps_mret
         | |- keeps _ pass => apply keeps_pass
         | |- keeps _ get => apply keeps_get
         | |- keeps _ (raise _) => apply keeps_raise
         | |- keeps _ (lift _) => apply keeps_lift
         end.

(** X11: the methods keep to their own part of the object.  The colour
    and brightness setters, [light] and [show] never change a key state
    and never fire a notification; a poll cycle never changes the cached
    colour or brightness, the thread object or the two lifecycle flags.
    This holds whether the method returns or raises. *)
Theorem methods_keep_apart :
  (forall color, keeps key_view (G19.color_setter color))
  /\ (forall b, keeps key_view (G19.brightness_setter b))
  /\ (forall keys, keeps key_view (G19.light keys))
  /\ (forall data, keeps key_view (G19.show data))
  /\ keeps key_view G19.start
  /\ keeps key_view G19.stop
  /\ keeps session_view G19.poll_cycle
  /\ (forall cycles, keeps (fun self => (G19._color self, G19._brightness self,
                                         G19._thread self, G19._stopped self))
                           (G19._run cycles)).
Proof.
  repeat split; intros;
    unfold G19.color_setter, G19.brightness_setter, G19.light, G19.start,
      G19.stop, G19._run, G19.poll_cycle, G19.poll_game_keys,
      G19.poll_display_keys, G19.read_game_keys, G19.read_display_keys,
      G19.with_lock, G19.ctrl_transfer, G19.read;
    keeps_steps.
Qed.

(** ** Session lifecycle: [start] and [stop] *)

(** X12: [start] on a running object does nothing, so starting twice is
    starting once; [stop] always sets the stop flag, raises
    [AttributeError] when no thread was ever started, and otherwise
    returns normally, also when it is called again. *)
Theorem start_stop_compose (self : G19.t) :
  (G19._running self = true -> G19.start self = (self, Ok tt))
  /\ G19.start (G19.start self).1 = ((G19.start self).1, Ok tt)
  /\ (G19._running self = false ->
      G19._thread (G19.start self).1 = Some PollThread
      /\ G19._running (G19.start self).1 = true)
  /\ (G19._thread self = None ->
      G19.stop self = (G19.set_stopped true self, Raise AttributeError))
  /\ (G19._thread self <> None ->
      G19.stop self = (G19.set_stopped true self, Ok tt)
      /\ G19.stop (G19.stop self).1 = ((G19.stop self).1, Ok tt)).
Proof.
  assert (Hrunning : forall s, G19._running s = true ->
                               G19.start s = (s, Ok tt)).
  { intros s Hs. unfold G19.start, mbind, stateful_bind, get. simpl.
    now rewrite Hs. }
  split; [apply Hrunning|]. split; [|split; [|split]].
  - apply Hrunning.
    unfold G19.start, mbind, stateful_bind, get, modify. simpl.
    destruct (G19._running self) eqn:Hs; simpl; [exact Hs|reflexivity].
  - intros Hs. unfold G19.start, mbind, stateful_bind, get, modify. simpl.
    rewrite Hs. simpl. split; reflexivity.
  - intros Hth. unfold G19.stop, mbind, stateful_bind, get, modify. simpl.
    now rewrite Hth.
  - intros Hth.
    assert (Hstop : G19.stop self = (G19.set_stopped true self, Ok tt)).
    { unfold G19.stop, mbind, stateful_bind, get, modify. simpl.
      destruct (G19._thread self) as [[]|]; [reflexivity|congruence]. }
    split; [exact Hstop|]. rewrite Hstop. simpl.
    unfold G19.stop, mbind, stateful_bind, get, modify. simpl.
    destruct (G19._thread self) as [[]|]; [reflexivity|congruence].
Qed.

Lemma start_stop_compose_witness :
  G19._thread (G19.init quiet_device) = None
  /\ G19.stop (G19.init quiet_device)
     = (G19.set_stopped true (G19.init quiet_device), Raise AttributeError).
Proof.
  assert (Hth : G19._thread (G19.init quiet_device) = None) by reflexivity.
  split; [exact Hth|].
  exact (proj1 (proj2 (proj2 (proj2 (start_stop_compose _)))) Hth).
Defined.

Lemma perform_keeps_flags (c : call) (self : G19.t) :
  (G19._stopped self = true -> G19._stopped (perform c self).1 = true)
  /\ (G19._thread self <> None -> G19._thread (perform c self).1 <> None).
Proof.
  assert (Hkeep : forall m : stateful G19.t unit,
             keeps (fun s => (G19._stopped s, G19._thread s)) m ->
             (G19._stopped self = true -> G19._stopped (m self).1 = true)
             /\ (G19._thread self <> None -> G19._thread (m self).1 <> None)).
  { intros m Hm. specialize (Hm self). injection Hm as -> ->. auto. }
  destruct c; simpl.
  - apply Hkeep. unfold G19.color_setter, G19.with_lock, G19.ctrl_transfer.
    keeps_steps.
  - apply Hkeep.
    unfold G19.brightness_setter, G19.with_lock, G19.ctrl_transfer.
    keeps_steps.
  - apply Hkeep. unfold G19.light, G19.with_lock, G19.ctrl_transfer.
    keeps_steps.
  - apply Hkeep. keeps_steps.
  - unfold G19.start, mbind, stateful_bind, get, modify. simpl.
    destruct (G19._running self); simpl; split; auto; discriminate.
  - unfold G19.stop, mbind, stateful_bind, get, modify. simpl.
    destruct (G19._thread self) as [[]|] eqn:Hth; simpl; rewrite ?Hth;
      split; intros; congruence.
  - apply Hkeep.
    unfold G19.poll_cycle, G19.poll_game_keys, G19.poll_display_keys,
      G19.read_game_keys, G19.read_display_keys, G19.with_lock, G19.read.
    keeps_steps.
Qed.

(** X13: no method ever clears the stop flag or drops the thread
    object: once [stop] has been called the flag stays set through every
    later sequence of calls and poll cycles, so the flag of a stopped
    object can never be lowered for a new polling thread; and once a
    thread was started, [stop] never raises again. *)
Theorem stop_flag_is_final (calls : list call) (self : G19.t) :
  (G19._stopped self = true -> G19._stopped (session calls self) = true)
  /\ (G19._thread self <> None ->
      G19._thread (session calls self) <> None
      /\ (G19.stop (session calls self)).2 = Ok tt).
Proof.
  assert (Hboth : (G19._stopped self = true ->
                   G19._stopped (session calls self) = true)
                  /\ (G19._thread self <> None ->
                      G19._thread (session calls self) <> None)).
  { unfold session. revert self.
    induction calls as [|c calls IH]; intros self; [auto|].
    simpl. destruct (perform_keeps_flags c self) as [Hflag Hthread].
    destruct (IH (perform c self).1) as [IHflag IHthread]. auto. }
  destruct Hboth as [Hflag Hthread]. split; [exact Hflag|].
  intros Hth. specialize (Hthread Hth). split; [exact Hthread|].
  unfold G19.stop, mbind, stateful_bind, get, modify. simpl.
  destruct (G19._thread (session calls self)) as [[]|];
    [reflexivity|congruence].
Qed.

Lemma stop_flag_is_final_witness :
  G19._stopped stopped_session = true
  /\ G19._stopped
       (session [CallStart; CallPoll; CallColor (1, 2, 3); CallStart]
                stopped_session) = true.
Proof.
  assert (Hflag : G19._stopped stopped_session = true) by reflexivity.
  split; [exact Hflag|].
  exact (proj1 (stop_flag_is_final _ stopped_session) Hflag).
Defined.

(** ** The cached colour and brightness *)

Lemma perform_cache (c : call) (self : G19.t) :
  G19._color (perform c self).1
  = match c with CallColor c' => c' | _ => G19._color self end
  /\ G19._brightness (perform c self).1
     = match c with
       | CallBrightness b' =>
           if decide (0 <= b' <= 100) then b' else G19._brightness self
       | _ => G19._brightness self
       end.
Proof.
  assert (Hkeep : forall m : stateful G19.t unit,
             keeps (fun s => (G19._color s, G19._brightness s)) m ->
             G19._color (m self).1 = G19._color self
             /\ G19._brightness (m self).1 = G19._brightness self).
  { intros m Hm. specialize (Hm self). injection Hm as -> ->. auto. }
  destruct c; simpl.
  - unfold G19.color_setter, G19.with_lock, G19.ctrl_transfer, G19.issue,
      usb_issue, mbind, stateful_bind, modify. simpl.
    destruct (responds _ _ _); split; reflexivity.
  - unfold G19.brightness_setter, G19.with_lock, G19.ctrl_transfer,
      G19.issue, usb_issue.
    destruct (decide (0 <= brightness <= 100));
      unfold mbind, stateful_bind, modify, pass, raise; simpl;
      [destruct (responds _ _ _)|]; split; reflexivity.
  - apply Hkeep. unfold G19.light, G19.with_lock, G19.ctrl_transfer.
    keeps_steps.
  - apply Hkeep. keeps_steps.
  - apply Hkeep. unfold G19.start. keeps_steps.
  - apply Hkeep. unfold G19.stop. keeps_steps.
  - apply Hkeep.
    unfold G19.poll_cycle, G19.poll_game_keys, G19.poll_display_keys,
      G19.read_game_keys, G19.read_display_keys, G19.with_lock, G19.read.
    keeps_steps.
Qed.

(** X14: the cache follows the last write.  After any sequence of method
    calls and poll cycles, on any device, the colour getter returns the
    colour of the last colour-setter call and the brightness getter the
    value of the last brightness-setter call that was within [0, 100]
    (or the values the object had, if there was none), whether or not
    the transfers succeeded; neither getter changes the object. *)
Theorem cache_is_last_write (calls : list call) (self : G19.t) :
  G19.color (session calls self)
  = (session calls self, Ok (last_color calls (G19._color self)))
  /\ G19.brightness (session calls self)
     = (session calls self,
        Ok (last_brightness calls (G19._brightness self))).
Proof.
  assert (Hcache : G19._color (session calls self)
                   = last_color calls (G19._color self)
                   /\ G19._brightness (session calls self)
                      = last_brightness calls (G19._brightness self)).
  { unfold session, last_color, last_brightness. revert self.
    induction calls as [|c calls IH]; intros self; [auto|].
    simpl. destruct (perform_cache c self) as [Hc Hb].
    destruct (IH (perform c self).1) as [IHc IHb].
    rewrite IHc, IHb, Hc, Hb. auto. }
  destruct Hcache as [Hc Hb].
  unfold G19.color, G19.brightness, mbind, stateful_bind, get, mret,
    stateful_ret. simpl.
  now rewrite Hc, Hb.
Qed.

(** ** [light] with members of [LightKeys] *)

Lemma led_mask_lor (key : LightKeys.t) (m1 m2 m3 mr : bool) :
  Z.lor (LightKeys.int key) (led_mask m1 m2 m3 mr)
  = led_mask (bool_decide (key = LightKeys.M1) || m1)
             (bool_decide (key = LightKeys.M2) || m2)
             (bool_decide (key = LightKeys.M3) || m3)
             (bool_decide (key = LightKeys.MR) || mr).
Proof. destruct key, m1, m2, m3, mr; reflexivity. Qed.

Lemma bool_decide_elem_cons {A : Type} `{EqDecision A} (x y : A)
      (l : list A) :
  bool_decide (x ∈ y :: l) = bool_decide (y = x) || bool_decide (x ∈ l).
Proof.
  apply eq_true_iff_eq.
  rewrite orb_true_iff, !bool_decide_eq_true, elem_of_cons.
  split; intros [E|E]; auto.
Qed.

Lemma light_keys_mask (keys : list LightKeys.t) :
  foldr Z.lor 0 (LightKeys.int <$> keys)
  = led_mask (bool_decide (LightKeys.M1 ∈ keys))
             (bool_decide (LightKeys.M2 ∈ keys))
             (bool_decide (LightKeys.M3 ∈ keys))
             (bool_decide (LightKeys.MR ∈ keys)).
Proof.
  induction keys as [|key keys IH]; [reflexivity|].
  rewrite fmap_cons. simpl foldr. rewrite IH, led_mask_lor.
  now rewrite !bool_decide_elem_cons.
Qed.

(** X15: called with members of [LightKeys], [light] sends [[5, m]]
    where [m] has bit 0x80, 0x40, 0x20 or 0x10 set exactly when M1, M2,
    M3 or MR is among the arguments, and no other bit; so the payload
    depends only on which LEDs are named, not on their order or on
    repetitions. *)
Theorem light_names_leds (keys : list LightKeys.t) (self : G19.t) :
  let m := led_mask (bool_decide (LightKeys.M1 ∈ keys))
                    (bool_decide (LightKeys.M2 ∈ keys))
                    (bool_decide (LightKeys.M3 ∈ keys))
                    (bool_decide (LightKeys.MR ∈ keys)) in
  performs (G19.light (LightKeys.int <$> keys)) self
           (CtrlTransfer (Z.lor TYPE_CLASS RECIP_INTERFACE) 0x09 0x305 0x01
                         [5; m] 10)
  /\ 0 <= m <= 0xf0
  /\ (forall key, Py.truthy (Z.land m (LightKeys.int key))
                  = bool_decide (key ∈ keys))
  /\ (forall keys' : list LightKeys.t,
         (forall key, key ∈ keys' <-> key ∈ keys) ->
         G19.light (LightKeys.int <$> keys') self
         = G19.light (LightKeys.int <$> keys) self).
Proof.
  intros m. subst m. split; [|split; [|split]].
  - rewrite <- light_keys_mask. apply light_performs.
  - unfold led_mask. repeat destruct (bool_decide _); lia.
  - intros key. unfold led_mask.
    destruct key;
      repeat match goal with
             | |- context [bool_decide (?k ∈ keys)] =>
                 destruct (bool_decide (k ∈ keys))
             end; reflexivity.
  - intros keys' Hsame. unfold G19.light.
    rewrite !fold_left_lor, !light_keys_mask.
    now rewrite !(bool_decide_ext _ _ (Hsame _)).
Qed.

Lemma light_names_leds_witness :
  (forall key, key ∈ [LightKeys.MR; LightKeys.M1; LightKeys.MR]
               <-> key ∈ [LightKeys.M1; LightKeys.MR])
  /\ G19.light (LightKeys.int <$> [LightKeys.MR; LightKeys.M1; LightKeys.MR])
               (G19.init quiet_device)
     = G19.light (LightKeys.int <$> [LightKeys.M1; LightKeys.MR])
                 (G19.init quiet_device).
Proof.
  assert (Hsame : forall key,
             key ∈ [LightKeys.MR; LightKeys.M1; LightKeys.MR]
             <-> key ∈ [LightKeys.M1; LightKeys.MR])
    by (intros key; rewrite !elem_of_cons; tauto).
  split; [exact Hsame|].
  exact (proj2 (proj2 (proj2 (light_names_leds
                                [LightKeys.M1; LightKeys.MR]
                                (G19.init quiet_device)))) _ Hsame).
Defined.

(** ** Events *)

Section EventFacts.
Context {H A W : Type} `{EqDecision H}.
Variable invoke : H -> A -> stateful W unit.

Lemma for_each_app {B S : Type} (l1 l2 : list B)
      (body : B -> stateful S unit) (s : S) :
  Py.for_each (l1 ++ l2) body s
  = (Py.for_each l1 body;; Py.for_each l2 body) s.
Proof.
  revert s. induction l1 as [|a l1 IH]; intros s; simpl.
  - unfold mbind, stateful_bind, pass. simpl.
    now destruct (Py.for_each l2 body s) as [s' [[]|e]].
  - unfold mbind, stateful_bind in *.
    destruct (body a s) as [s1 [[]|e]]; [apply IH|reflexivity].
Qed.

Lemma list_remove_first (x : H) (l1 l2 : list H) :
  x ∉ l1 -> Event.list_remove x (l1 ++ x :: l2) = Some (l1 ++ l2).
Proof.
  induction l1 as [|y l1 IH]; intros Hout; simpl.
  - now rewrite decide_True.
  - apply not_elem_of_cons in Hout as [Hne Hout].
    rewrite decide_False by congruence. now rewrite IH.
Qed.

Lemma list_remove_absent (x : H) (l : list H) :
  x ∉ l -> Event.list_remove x l = None.
Proof.
  induction l as [|y l IH]; intros Hout; simpl; [reflexivity|].
  apply not_elem_of_cons in Hout as [Hne Hout].
  rewrite decide_False by congruence. now rewrite IH.
Qed.

(** X16: [fire] calls the handlers in the order in which they were
    added: a handler added last is called after all the others, once
    they have all returned.  When a handler raises, the exception leaves
    [fire] and the handlers registered after it are not called. *)
Theorem fire_in_registration_order (ev : Event.t H) (handler : H)
        (arguments : A) (w : W) :
  Event.fire invoke (Event.iadd handler ev).1 arguments w
  = (Event.fire invoke ev arguments;; invoke handler arguments) w
  /\ (forall before after w1 w2 e,
         Event._handlers ev = before ++ handler :: after ->
         Py.for_each before (fun h => invoke h arguments) w = (w1, Ok tt) ->
         invoke handler arguments w1 = (w2, Raise e) ->
         Event.fire invoke ev arguments w = (w2, Raise e)).
Proof.
  split.
  - unfold Event.fire, Event.iadd, modify. simpl.
    rewrite for_each_app. unfold mbind, stateful_bind.
    destruct (Py.for_each _ _ w) as [w1 [[]|e]]; [|reflexivity].
    simpl. unfold mbind, stateful_bind, pass.
    now destruct (invoke handler arguments w1) as [w2 [[]|e]].
  - intros before after w1 w2 e Hsplit Hbefore Hraise.
    unfold Event.fire. rewrite Hsplit, for_each_app.
    unfold mbind, stateful_bind. rewrite Hbefore. simpl.
    unfold mbind, stateful_bind. now rewrite Hraise.
Qed.

(** X17: [-=] removes the first registration of the handler and keeps
    the order of the others; when the handler is not registered it
    raises [ValueError] and leaves the event as it was. *)
Theorem isub_removes_first (ev : Event.t H) (handler : H) :
  (forall before after,
      Event._handlers ev = before ++ handler :: after ->
      handler ∉ before ->
      Event.isub handler ev
      = ({| Event._handlers := before ++ after |}, Ok tt))
  /\ (handler ∉ Event._handlers ev ->
      Event.isub handler ev = (ev, Raise ValueError)).
Proof.
  split.
  - intros before after Hsplit Hout. unfold Event.isub.
    now rewrite Hsplit, list_remove_first.
  - intros Hout. unfold Event.isub. now rewrite list_remove_absent.
Qed.

(** X18: [+=] followed by [-=] of the same handler always succeeds and
    leaves every handler registered as many times as before.  It gives
    back the same event when the handler was not registered before; when
    it was, it is its first registration that goes and the handler is
    now called last. *)
Theorem iadd_isub_round_trip (ev : Event.t H) (handler : H) :
  (handler ∉ Event._handlers ev ->
   Event.isub handler (Event.iadd handler ev).1 = (ev, Ok tt))
  /\ (forall before after,
         Event._handlers ev = before ++ handler :: after ->
         handler ∉ before ->
         Event.isub handler (Event.iadd handler ev).1
         = ({| Event._handlers := before ++ after ++ [handler] |}, Ok tt))
  /\ exists ev',
      Event.isub handler (Event.iadd handler ev).1 = (ev', Ok tt)
      /\ Event._handlers ev' ≡ₚ Event._handlers ev.
Proof.
  assert (Hnew : handler ∉ Event._handlers ev ->
                 Event.isub handler (Event.iadd handler ev).1 = (ev, Ok tt)).
  { intros Hout. unfold Event.isub, Event.iadd, modify. simpl.
    rewrite (list_remove_first handler (Event._handlers ev) []) by exact Hout.
    rewrite app_nil_r. now destruct ev. }
  assert (Hold : forall before after,
             Event._handlers ev = before ++ handler :: after ->
             handler ∉ before ->
             Event.isub handler (Event.iadd handler ev).1
             = ({| Event._handlers := before ++ after ++ [handler] |},
                Ok tt)).
  { intros before after Hsplit Hout.
    unfold Event.isub, Event.iadd, modify. simpl.
    rewrite Hsplit, <- app_assoc. simpl.
    now rewrite (list_remove_first handler before (after ++ [handler])). }
  split; [exact Hnew|]. split; [exact Hold|].
  destruct (decide (handler ∈ Event._handlers ev)) as [Hin|Hout].
  - apply list_elem_of_split_l in Hin as (before & after & Hsplit & Hfirst).
    eexists. split; [exact (Hold before after Hsplit Hfirst)|].
    simpl. rewrite Hsplit.
    rewrite (Permutation_app_comm after [handler]). reflexivity.
  - exists ev. split; [exact (Hnew Hout)|reflexivity].
Qed.

End EventFacts.

(** Handlers numbered 1, 2, 3 that log their call; number 2 raises. *)
Lemma fire_in_registration_order_witness :
  let invoke := fun (h : nat) (a : Z) (log : list (nat * Z)) =>
                  (log ++ [(h, a)],
                   if (h =? 2)%nat then Raise ValueError else Ok tt) in
  Event.fire invoke {| Event._handlers := [1; 2; 3]%nat |} 7 []
  = ([(1%nat, 7); (2%nat, 7)], Raise ValueError).
Proof.
  intros invoke.
  exact (proj2 (fire_in_registration_order invoke
                  {| Event._handlers := [1; 2; 3]%nat |} 2%nat 7 [])
               [1%nat] [3%nat] [(1%nat, 7)] [(1%nat, 7); (2%nat, 7)]
               ValueError eq_refl eq_refl eq_refl).
Defined.

Lemma isub_removes_first_witness :
  (1%nat ∉ [2%nat])
  /\ Event.isub 1%nat {| Event._handlers := [2; 1; 3; 1]%nat |}
     = ({| Event._handlers := [2; 3; 1]%nat |}, Ok tt).
Proof.
  assert (Hout : 1%nat ∉ [2%nat])
    by (intros Hin; apply list_elem_of_singleton in Hin; discriminate).
  split; [exact Hout|].
  exact (proj1 (isub_removes_first
                  {| Event._handlers := [2; 1; 3; 1]%nat |} 1%nat)
               [2%nat] [3; 1]%nat eq_refl Hout).
Defined.

Lemma iadd_isub_round_trip_witness :
  (1%nat ∉ [2; 3]%nat)
  /\ Event.isub 1%nat
       (Event.iadd 1%nat {| Event._handlers := [2; 3]%nat |}).1
     = ({| Event._handlers := [2; 3]%nat |}, Ok tt).
Proof.
  assert (Hout : 1%nat ∉ [2; 3]%nat)
    by (intros Hin; repeat (apply elem_of_cons in Hin as [Hin|Hin];
                            [discriminate|]); inversion Hin).
  split; [exact Hout|].
  exact (proj1 (iadd_isub_round_trip
                  {| Event._handlers := [2; 3]%nat |} 1%nat) Hout).
Defined.

(** ** The polling loop: many cycles *)

Lemma poll_cycle_ok (self : G19.t) :
  total_keys self -> (G19.poll_cycle self).2 = Ok tt ->
  total_keys (G19.poll_cycle self).1
  /\ transfers (G19._device (G19.poll_cycle self).1)
     = transfers (G19._device self) ++ [game_read; pad_read].
Proof.
  intros [Hpad Hgame].
  unfold G19.poll_cycle, mbind, stateful_bind.
  pose proof (poll_game_keys_outcome self Hgame) as Hg. cbv zeta in Hg.
  destruct (G19.poll_game_keys self) as [s1 r1]. simpl in Hg.
  destruct Hg as (Hdev & Hdisp & Hgame1 & [[_ ->]|[_ ->]]);
    [discriminate|].
  assert (Hpad1 : forall k : ControlKey.t,
             is_Some (G19._display_keys s1 !! k))
    by (rewrite Hdisp; exact Hpad).
  pose proof (poll_display_keys_outcome s1 Hpad1) as Hp. cbv zeta in Hp.
  destruct (G19.poll_display_keys s1) as [s2 r2]. simpl in Hp |- *.
  destruct Hp as (Hdev2 & Hgame2 & Hpad2 & _).
  intros _. split.
  - split; [exact Hpad2|]. rewrite Hgame2. exact Hgame1.
  - rewrite Hdev2. simpl. rewrite Hdev. simpl. now rewrite <- app_assoc.
Qed.

Lemma poll_cycles_ok {A : Type} (l : list A) (self : G19.t) :
  total_keys self ->
  (Py.for_each l (fun _ => G19.poll_cycle) self).2 = Ok tt ->
  transfers (G19._device (Py.for_each l (fun _ => G19.poll_cycle) self).1)
  = transfers (G19._device self)
    ++ concat (replicate (length l) [game_read; pad_read]).
Proof.
  revert self. induction l as [|a l IH]; intros self Htotal.
  - simpl. now rewrite app_nil_r.
  - simpl. unfold mbind, stateful_bind.
    pose proof (poll_cycle_ok self Htotal) as Hcycle.
    destruct (G19.poll_cycle self) as [s1 [[]|e]]; simpl in *;
      [|discriminate].
    destruct (Hcycle eq_refl) as [Htotal1 Hlog].
    intros Hok. rewrite (IH s1 Htotal1 Hok), Hlog.
    now rewrite <- app_assoc.
Qed.

(** X19: a [_run] that returns normally after [cycles] poll cycles has
    issued exactly [2 * cycles] transfers, all of them reads: in every
    cycle the macro-key read [(0x83, 20, 10)] followed by the control-pad
    read [(0x81, 2, 10)]; the polling loop never writes to the device. *)
Theorem run_only_reads (self : G19.t) (cycles : nat) :
  total_keys self -> (G19._run cycles self).2 = Ok tt ->
  transfers (G19._device (G19._run cycles self).1)
  = transfers (G19._device self)
    ++ concat (replicate cycles [game_read; pad_read]).
Proof.
  intros Htotal. unfold G19._run, mbind, stateful_bind.
  pose proof (poll_cycles_ok (Py.range cycles) self Htotal) as Hlog.
  destruct (Py.for_each _ _ self) as [s1 [[]|e]]; simpl in *;
    [|discriminate].
  intros _. rewrite (Hlog eq_refl). unfold Py.range.
  now rewrite length_seq.
Qed.

Lemma run_only_reads_witness :
  total_keys (G19.init ok_pad)
  /\ (G19._run 2 (G19.init ok_pad)).2 = Ok tt
  /\ transfers (G19._device (G19._run 2 (G19.init ok_pad)).1)
     = [game_read; pad_read; game_read; pad_read].
Proof.
  assert (Htotal : total_keys (G19.init ok_pad))
    by (split; intros k; simpl; rewrite all_released_lookup; eauto).
  assert (Hok : (G19._run 2 (G19.init ok_pad)).2 = Ok tt) by reflexivity.
  refine (conj Htotal (conj Hok _)).
  exact (run_only_reads (G19.init ok_pad) 2 Htotal Hok).
Defined.
